(** * compliance_policy: a shallow embedding of the reconciliation engine

    The Ansible module [library/compliance_policy.py] reconciles one
    OpenSCAP compliance policy against a Satellite server.  This file
    embeds the module's methods ([_api_request], [_get_all],
    [_resolve_ids], [_find_policy], [_resolve_scap_content],
    [_resolve_scap_profile], [_build_policy_payload], [_needs_update],
    [run]) as functions over JSON values, in a monad that threads the
    remote server and the log of requests sent and that stops on
    [exit_json], [fail_json] or an uncaught Python exception.

    Layout: Python values and primitives; the monad; the module; a
    reference Satellite used as a concrete environment; the properties. *)

From Stdlib Require Import ZArith Ascii DecimalString DecimalZ DecimalN.
From stdpp Require Import base gmap strings list sorting.

Set Warnings "-register-all".

Local Open Scope string_scope.
Local Open Scope list_scope.
Local Open Scope Z_scope.

(** ** JSON values as Python sees them after [json.loads]

    Numbers are restricted to integers (which Python keeps unbounded);
    a dictionary is an association list in insertion order, looked up by
    its first binding of a key. *)

Inductive json :=
| JNull
| JBool (b : bool)
| JInt (z : Z)
| JStr (s : string)
| JList (l : list json)
| JObj (kv : list (string * json)).

(** Uncaught Python exceptions that the dynamic accesses of the module can
    raise on ill-shaped server data. *)
Inductive pyexc := KeyError | TypeError | AttributeError.

(** How a computation can stop early: [module.exit_json], [module.fail_json]
    (both end the process) or an uncaught exception. *)
Inductive stop :=
| ExitJson (changed : bool) (entity : json)
| FailJson (msg : string)
| Raised (e : pyexc).

Inductive res (A : Type) :=
| Ok (a : A)
| Stop (s : stop).
Arguments Ok {A} a.
Arguments Stop {A} s.

#[global] Instance res_ret : MRet res := fun A a => Ok a.
#[global] Instance res_bind : MBind res := fun A B f r =>
  match r with
  | Ok a => f a
  | Stop s => Stop s
  end.

Definition raise {A} (e : pyexc) : res A := Stop (Raised e).

(** *** Dictionaries *)

Fixpoint assoc (k : string) (kv : list (string * json)) : option json :=
  match kv with
  | [] => None
  | (k', v) :: r => if String.eqb k k' then Some v else assoc k r
  end.

(** [d[k] = v]: overwrite in place, or append. *)
Fixpoint dict_set (k : string) (v : json) (kv : list (string * json))
  : list (string * json) :=
  match kv with
  | [] => [(k, v)]
  | (k', v') :: r =>
      if String.eqb k k' then (k', v) :: r else (k', v') :: dict_set k v r
  end.

(** [o[k]] for a string [k]. *)
Definition subscript (o : json) (k : string) : res json :=
  match o with
  | JObj kv => match assoc k kv with
               | Some v => Ok v
               | None => raise KeyError
               end
  | _ => raise TypeError
  end.

(** [o.get(k, default)]; only dictionaries have [.get]. *)
Definition py_get (o : json) (k : string) (default : json) : res json :=
  match o with
  | JObj kv => Ok (match assoc k kv with Some v => v | None => default end)
  | _ => raise AttributeError
  end.

Definition chars (s : string) : list json :=
  (fun c => JStr (String c EmptyString)) <$> String.list_ascii_of_string s.

(** [for x in o]: lists yield their elements, strings their characters,
    dictionaries their keys; nothing else is iterable. *)
Definition py_iter (o : json) : res (list json) :=
  match o with
  | JList l => Ok l
  | JStr s => Ok (chars s)
  | JObj kv => Ok ((fun p => JStr p.1) <$> kv)
  | _ => raise TypeError
  end.

(** *** Equality ([==]); [True == 1] and [False == 0] as in Python *)

Definition Z_of_bool (b : bool) : Z := if b then 1 else 0.

Fixpoint py_eq (a b : json) {struct a} : bool :=
  match a, b with
  | JNull, JNull => true
  | JBool x, JBool y => Bool.eqb x y
  | JBool x, JInt y => Z_of_bool x =? y
  | JInt x, JBool y => x =? Z_of_bool y
  | JInt x, JInt y => x =? y
  | JStr x, JStr y => String.eqb x y
  | JList xs, JList ys =>
      (fix go (xs ys : list json) : bool :=
         match xs, ys with
         | [], [] => true
         | x :: xs', y :: ys' => py_eq x y && go xs' ys'
         | _, _ => false
         end) xs ys
  | JObj xs, JObj ys =>
      (length xs =? length ys)%nat &&
      (fix all (kvs : list (string * json)) : bool :=
         match kvs with
         | [] => true
         | (k, v) :: r =>
             (fix find (ys : list (string * json)) : bool :=
                match ys with
                | [] => false
                | (k', v') :: r' =>
                    if String.eqb k k' then py_eq v v' else find r'
                end) ys && all r
         end) xs
  | _, _ => false
  end.

Definition py_ne (a b : json) : bool := negb (py_eq a b).

Definition jstr_opt (o : option string) : json :=
  match o with Some s => JStr s | None => JNull end.

(** *** [str()] and [repr()], as used by [str.format]

    [repr] of a string is rendered in single quotes without escapes,
    which is what Python prints for text free of quotes, backslashes and
    control characters. *)

Definition str_of_Z (z : Z) : string := NilZero.string_of_int (Z.to_int z).

Fixpoint py_repr (v : json) : string :=
  match v with
  | JNull => "None"
  | JBool true => "True"
  | JBool false => "False"
  | JInt z => str_of_Z z
  | JStr s => "'" +:+ s +:+ "'"
  | JList l =>
      "[" +:+
      (fix go (l : list json) : string :=
         match l with
         | [] => ""
         | x :: r =>
             py_repr x +:+ match r with [] => "" | _ => ", " +:+ go r end
         end) l +:+ "]"
  | JObj kv =>
      "{" +:+
      (fix go (kv : list (string * json)) : string :=
         match kv with
         | [] => ""
         | (k, x) :: r =>
             "'" +:+ k +:+ "': " +:+ py_repr x +:+
             match r with [] => "" | _ => ", " +:+ go r end
         end) kv +:+ "}"
  end.

Definition py_str (v : json) : string :=
  match v with
  | JStr s => s
  | _ => py_repr v
  end.

(** *** [sorted]

    Integers and booleans order by value, strings lexicographically; a
    list of at most one element is returned as it is; any other mixture
    cannot be ordered and raises [TypeError].  The sort is stable. *)

Fixpoint insert_by {A} (leb : A -> A -> bool) (x : A) (l : list A) : list A :=
  match l with
  | [] => [x]
  | y :: r => if leb x y then x :: l else y :: insert_by leb x r
  end.

Definition sort_by {A} (leb : A -> A -> bool) (l : list A) : list A :=
  foldr (insert_by leb) [] l.

Definition num_key (v : json) : option Z :=
  match v with
  | JInt z => Some z
  | JBool b => Some (Z_of_bool b)
  | _ => None
  end.

Definition str_key (v : json) : option string :=
  match v with
  | JStr s => Some s
  | _ => None
  end.

Definition key_leb {K} (key : json -> option K) (leb : K -> K -> bool)
  (a b : json) : bool :=
  match key a, key b with
  | Some x, Some y => leb x y
  | _, _ => true
  end.

Definition py_sorted (l : list json) : res (list json) :=
  if forallb (fun v => bool_decide (is_Some (num_key v))) l
  then Ok (sort_by (key_leb num_key Z.leb) l)
  else if forallb (fun v => bool_decide (is_Some (str_key v))) l
  then Ok (sort_by (key_leb str_key String.leb) l)
  else match l with
       | [_] => Ok l
       | _ => raise TypeError
       end.

(** [sorted(o)] on an arbitrary value iterates it first. *)
Definition py_sorted_of (o : json) : res (list json) :=
  l ← py_iter o; py_sorted l.

(** [[x[k] for x in o]] *)
Definition comprehend (k : string) (o : json) : res (list json) :=
  l ← py_iter o; mapM (fun x => subscript x k) l.

(** *** Dictionary keys

    A Python dictionary is keyed by hashable values; [True] and [1] are
    the same key, lists and dictionaries are unhashable. *)

Inductive hkey := KNone | KNum (z : Z) | KStr (s : string).

#[global] Instance hkey_eq_dec : EqDecision hkey.
Proof. solve_decision. Defined.

#[global] Program Instance hkey_countable : Countable hkey :=
  inj_countable'
    (fun k => match k with
              | KNone => inl ()
              | KNum z => inr (inl z)
              | KStr s => inr (inr s)
              end)
    (fun c => match c with
              | inl _ => KNone
              | inr (inl z) => KNum z
              | inr (inr s) => KStr s
              end) _.
Next Obligation. by intros []. Qed.

Definition to_key (v : json) : res hkey :=
  match v with
  | JNull => Ok KNone
  | JBool b => Ok (KNum (Z_of_bool b))
  | JInt z => Ok (KNum z)
  | JStr s => Ok (KStr s)
  | JList _ | JObj _ => raise TypeError
  end.

(** ** The transport collaborator

    [fetch_url] and the [json] codec are external: the module is embedded
    over any implementation of them.  [text] is what travels in a body. *)

Inductive method := GET | POST | PUT | DELETE.

#[global] Instance method_eq_dec : EqDecision method.
Proof. solve_decision. Defined.

(** The pair [(resp, info)] returned by [fetch_url]: [resp] is [None] when
    no response object is available, in which case the body, if any, is
    in [info['body']]. *)
Record fetched (text : Type) := Fetched {
  resp_read : option text;
  info_status : Z;
  info_msg : option string;
  info_body : option text
}.
Arguments Fetched {text}.
Arguments resp_read {text}.
Arguments info_status {text}.
Arguments info_msg {text}.
Arguments info_body {text}.

(** Connection parameters handed to every [fetch_url] call. *)
Record credentials := Credentials {
  url_username : string;
  url_password : string;
  cred_validate_certs : bool
}.

Class Transport := {
  text : Type;
  text_truthy : text -> bool;          (* [if response_body] *)
  json_loads : text -> option json;    (* [None]: ValueError or TypeError *)
  json_dumps : json -> text;
  Srv : Type;                          (* state of the remote server *)
  fetch_url :
    Srv -> credentials -> method -> string -> option text ->
    Srv * fetched text
}.

(** A request as logged: what [_api_request] was called with. *)
Record Request := {
  rq_method : method;
  rq_url : string;
  rq_data : option json
}.

Definition mutating (r : Request) : bool :=
  match rq_method r with
  | GET => false
  | _ => true
  end.

Section Engine.
Context {T : Transport}.

Record World := {
  srv : Srv;
  sent : list Request
}.

Definition M (A : Type) : Type := World -> res A * World.

#[global] Instance M_ret : MRet M := fun A a w => (Ok a, w).
#[global] Instance M_bind : MBind M := fun A B f m w =>
  match m w with
  | (Ok a, w') => f a w'
  | (Stop s, w') => (Stop s, w')
  end.

Definition lift {A} (r : res A) : M A := fun w => (r, w).
Definition exit_json {A} (changed : bool) (entity : json) : M A :=
  lift (Stop (ExitJson changed entity)).
Definition fail_json {A} (msg : string) : M A :=
  lift (Stop (FailJson msg)).

(** The mutating requests issued so far. *)
Definition writes (w : World) : list Request := filter (fun r => mutating r = true) (sent w).

(** ** The module's parameters, typed as [argument_spec] types them *)

Inductive state_t := present | absent.
Inductive deploy_t := ansible | puppet | manual.
Inductive period_t := weekly | monthly | custom.
Inductive weekday_t :=
  monday | tuesday | wednesday | thursday | friday | saturday | sunday.

#[global] Instance state_eq_dec : EqDecision state_t.
Proof. solve_decision. Defined.
#[global] Instance period_eq_dec : EqDecision period_t.
Proof. solve_decision. Defined.

Definition deploy_str (d : deploy_t) : string :=
  match d with ansible => "ansible" | puppet => "puppet" | manual => "manual" end.
Definition period_str (p : period_t) : string :=
  match p with weekly => "weekly" | monthly => "monthly" | custom => "custom" end.
Definition weekday_str (d : weekday_t) : string :=
  match d with
  | monday => "monday" | tuesday => "tuesday" | wednesday => "wednesday"
  | thursday => "thursday" | friday => "friday" | saturday => "saturday"
  | sunday => "sunday"
  end.

(** A parameter without default is [None] when it was not given. *)
Record Params := {
  server_url : string;
  username : string;
  password : string;
  validate_certs : bool;
  name : string;
  description : option string;
  scap_content : option string;
  scap_content_profile : option string;
  deploy_by : option deploy_t;
  period : option period_t;
  weekday : option weekday_t;
  day_of_month : option Z;
  cron_line : option string;
  organizations : option (list string);
  locations : option (list string);
  hostgroups : list string;
  state : state_t
}.

(** [required_if] of the argument spec. *)
Definition required_if (p : Params) : bool :=
  match state p with
  | present =>
      bool_decide (is_Some (scap_content p)) &&
      bool_decide (is_Some (scap_content_profile p)) &&
      bool_decide (is_Some (deploy_by p)) &&
      bool_decide (is_Some (period p)) &&
      bool_decide (is_Some (organizations p)) &&
      bool_decide (is_Some (locations p))
  | absent => true
  end &&
  match period p with
  | Some weekly => bool_decide (is_Some (weekday p))
  | Some monthly => bool_decide (is_Some (day_of_month p))
  | Some custom => bool_decide (is_Some (cron_line p))
  | None => true
  end.

Record AnsibleModule := {
  params : Params;
  check_mode : bool
}.

(** [str.rstrip('/')] *)
Fixpoint rstrip_slash (s : string) : string :=
  match s with
  | EmptyString => EmptyString
  | String c r =>
      match rstrip_slash r with
      | EmptyString => if Ascii.eqb c "/"%char then EmptyString else String c EmptyString
      | r' => String c r'
      end
  end.

Definition self_server_url (m : AnsibleModule) : string :=
  rstrip_slash (server_url (params m)).

Definition self_credentials (m : AnsibleModule) : credentials :=
  {| url_username := username (params m);
     url_password := password (params m);
     cred_validate_certs := validate_certs (params m) |}.

(** ** The methods of [SatelliteCompliancePolicyModule] *)

Section Methods.
Variable self : AnsibleModule.

(** The response body and its decoding, lines 231-235. *)
Definition response_body (f : fetched text) : option text :=
  match resp_read f with
  | Some b => Some b
  | None => info_body f
  end.

Definition decode (body : option text) : json :=
  match body with
  | Some b =>
      if text_truthy b
      then match json_loads b with
           | Some v => v
           | None => JObj []
           end
      else JObj []
  | None => JObj []
  end.

Definition _api_request (meth : method) (endpoint : string)
  (data : option json) : M (Z * json) := fun w =>
  let url := self_server_url self +:+ endpoint in
  let body := json_dumps <$> data in
  let '(s', f) := fetch_url (srv w) (self_credentials self) meth url body in
  let w' := {| srv := s';
               sent := (sent w ++ [{| rq_method := meth; rq_url := url;
                                     rq_data := data |}])%list |} in
  let status := info_status f in
  if status =? -1
  then fail_json ("Connection to " +:+ url +:+ " failed: " +:+
                  default "unknown error" (info_msg f)) w'
  else (Ok (status, decode (response_body f)), w').

Definition _get_all (endpoint : string) : M json :=
  '(status, result) ← _api_request GET (endpoint +:+ "?per_page=1000") None;
  if negb (status =? 200)
  then fail_json ("Failed to query " +:+ endpoint +:+ ": HTTP " +:+ str_of_Z status)
  else lift (py_get result "results" (JList [])).


(** [{item[key]: item['id'] for item in results}]: later items overwrite
    earlier ones that have the same key. *)
Fixpoint dict_of_items (key : string) (items : list json)
  (d : gmap hkey json) : res (gmap hkey json) :=
  match items with
  | [] => Ok d
  | item :: r =>
      k ← subscript item key;
      v ← subscript item "id";
      h ← to_key k;
      dict_of_items key r (<[h := v]> d)
  end.

(** The loop of [_resolve_ids]; [ids] is the list appended to. *)
Fixpoint resolve_loop (lookup : gmap hkey json) (key endpoint : string)
  (names : list string) (ids : list json) : res (list json) :=
  match names with
  | [] => Ok ids
  | name :: r =>
      match lookup !! KStr name with
      | None =>
          Stop (FailJson ("Could not find " +:+ key +:+ " '" +:+ name +:+
                          "' at " +:+ endpoint))
      | Some i => resolve_loop lookup key endpoint r (ids ++ [i])
      end
  end.

(** [names] is [None] when the parameter was not given: iterating it
    raises. *)
Definition _resolve_ids (resource_endpoint : string)
  (names : option (list string)) (key : string) : M (list json) :=
  results ← _get_all resource_endpoint;
  lookup ← lift (items ← py_iter results; dict_of_items key items ∅);
  lift (match names with
        | Some ns => resolve_loop lookup key resource_endpoint ns []
        | None => raise TypeError
        end).

(** The scan of [_find_policy]; Python's [None] is [JNull]. *)
Fixpoint find_by_name (name : string) (policies : list json) : res json :=
  match policies with
  | [] => Ok JNull
  | policy :: r =>
      n ← subscript policy "name";
      if py_eq n (JStr name) then Ok policy else find_by_name name r
  end.

Definition _find_policy (name : string) : M json :=
  policies ← _get_all "/api/v2/compliance/policies";
  lift (items ← py_iter policies; find_by_name name items).

Fixpoint scan_contents (title : json) (contents : list json)
  : res (option json) :=
  match contents with
  | [] => Ok None
  | content :: r =>
      t ← subscript content "title";
      if py_eq t title
      then i ← subscript content "id"; Ok (Some i)
      else scan_contents title r
  end.

Definition _resolve_scap_content (title : option string) : M json :=
  contents ← _get_all "/api/v2/compliance/scap_contents";
  found ← lift (items ← py_iter contents; scan_contents (jstr_opt title) items);
  match found with
  | Some i => mret i
  | None =>
      fail_json ("SCAP content '" +:+ py_str (jstr_opt title) +:+ "' not found")
  end.

Fixpoint scan_profiles (scap_content_title profile_id : json)
  (profiles : list json) : res (option json) :=
  match profiles with
  | [] => Ok None
  | profile :: r =>
      sc ← py_get profile "scap_content" (JObj []);
      t ← py_get sc "title" JNull;
      if py_eq t scap_content_title
      then
        pid ← py_get profile "profile_id" JNull;
        if py_eq pid profile_id
        then i ← subscript profile "id"; Ok (Some i)
        else scan_profiles scap_content_title profile_id r
      else scan_profiles scap_content_title profile_id r
  end.

Definition _resolve_scap_profile (scap_content_title profile_id : option string)
  : M json :=
  profiles ← _get_all "/api/v2/compliance/scap_content_profiles";
  found ← lift (items ← py_iter profiles;
                scan_profiles (jstr_opt scap_content_title)
                              (jstr_opt profile_id) items);
  match found with
  | Some i => mret i
  | None =>
      fail_json ("SCAP profile '" +:+ py_str (jstr_opt profile_id) +:+
                 "' not found in content '" +:+
                 py_str (jstr_opt scap_content_title) +:+ "'")
  end.

(** Lines 306-311: the schedule key selected by [period], added only when
    its parameter is truthy (given, and neither [0] nor the empty string). *)
Definition with_schedule (p : Params) (policy : list (string * json))
  : list (string * json) :=
  match period p with
  | Some weekly =>
      match weekday p with
      | Some d => dict_set "weekday" (JStr (weekday_str d)) policy
      | None => policy
      end
  | Some monthly =>
      match day_of_month p with
      | Some d => if d =? 0 then policy
                  else dict_set "day_of_month" (JInt d) policy
      | None => policy
      end
  | Some custom =>
      match cron_line p with
      | Some c => if String.eqb c "" then policy
                  else dict_set "cron_line" (JStr c) policy
      | None => policy
      end
  | None => policy
  end.

Definition policy_dict (p : Params)
  (scap_content_id scap_content_profile_id : json)
  (organization_ids location_ids hostgroup_ids : list json)
  : list (string * json) :=
  [ ("name", JStr (name p));
    ("description", JStr (default "" (description p)));
    ("scap_content_id", scap_content_id);
    ("scap_content_profile_id", scap_content_profile_id);
    ("period", jstr_opt (period_str <$> period p));
    ("deploy_by", jstr_opt (deploy_str <$> deploy_by p));
    ("organization_ids", JList organization_ids);
    ("location_ids", JList location_ids);
    ("hostgroup_ids", JList hostgroup_ids) ].

Definition _build_policy_payload : M json :=
  let p := params self in
  scap_content_id ← _resolve_scap_content (scap_content p);
  scap_content_profile_id ←
    _resolve_scap_profile (scap_content p) (scap_content_profile p);
  organization_ids ← _resolve_ids "/api/v2/organizations" (organizations p) "name";
  location_ids ← _resolve_ids "/api/v2/locations" (locations p) "name";
  hostgroup_ids ←
    match hostgroups p with
    | [] => mret []
    | hgs => _resolve_ids "/api/v2/hostgroups" (Some hgs) "title"
    end;
  let policy :=
    policy_dict p scap_content_id scap_content_profile_id
                organization_ids location_ids hostgroup_ids in
  mret (JObj [("policy", JObj (with_schedule p policy))]).

(** [existing.get(k, d) != desired.get(k, d)] *)
Definition field_ne (existing desired : json) (k : string) (d : json)
  : res bool :=
  a ← py_get existing k d;
  b ← py_get desired k d;
  Ok (py_ne a b).

(** [sorted([o['id'] for o in existing.get(k, [])])] *)
Definition existing_ids (existing : json) (k : string) : res (list json) :=
  l ← py_get existing k (JList []);
  ids ← comprehend "id" l;
  py_sorted ids.

(** [existing_ids != sorted(desired.get(k, []))] *)
Definition ids_ne (ids : list json) (desired : json) (k : string) : res bool :=
  d ← py_get desired k (JList []);
  sd ← py_sorted_of d;
  Ok (py_ne (JList ids) (JList sd)).

Definition _needs_update (existing desired_policy : json) : res bool :=
  desired ← subscript desired_policy "policy";
  c1 ← field_ne existing desired "description" (JStr "");
  c2 ← field_ne existing desired "scap_content_id" JNull;
  c3 ← field_ne existing desired "scap_content_profile_id" JNull;
  c4 ← field_ne existing desired "period" JNull;
  c5 ← field_ne existing desired "deploy_by" JNull;
  let checks := [c1; c2; c3; c4; c5] in
  per ← py_get desired "period" JNull;
  checks ←
    (if py_eq per (JStr "weekly")
     then c ← field_ne existing desired "weekday" JNull; Ok (checks ++ [c])%list
     else if py_eq per (JStr "monthly")
     then c ← field_ne existing desired "day_of_month" JNull; Ok (checks ++ [c])%list
     else if py_eq per (JStr "custom")
     then c ← field_ne existing desired "cron_line" JNull; Ok (checks ++ [c])%list
     else Ok checks);
  existing_org_ids ← existing_ids existing "organizations";
  existing_loc_ids ← existing_ids existing "locations";
  existing_hg_ids ← existing_ids existing "hostgroups";
  c6 ← ids_ne existing_org_ids desired "organization_ids";
  c7 ← ids_ne existing_loc_ids desired "location_ids";
  c8 ← ids_ne existing_hg_ids desired "hostgroup_ids";
  Ok (existsb id (checks ++ [c6; c7; c8])%list).

Definition entity (compliance_policies : list json) : json :=
  JObj [("compliance_policies", JList compliance_policies)].

(** [if c: body], where [body] may leave through [exit_json]. *)
Definition when (c : bool) (body : M ()) : M () :=
  if c then body else mret ().

Definition is_None (v : json) : bool :=
  match v with JNull => true | _ => false end.

Definition policies_endpoint : string := "/api/v2/compliance/policies".

(** [result.get('error', {}).get('message', result)] *)
Definition error_detail (result : json) : res json :=
  e ← py_get result "error" (JObj []);
  py_get e "message" result.

Definition run : M () :=
  let p := params self in
  let name := name p in
  existing ← _find_policy name;
  when (bool_decide (state p = absent)) (
    when (is_None existing) (exit_json false (entity []));;
    when (check_mode self) (exit_json true (entity []));;
    i ← lift (subscript existing "id");
    '(status, result) ←
      _api_request DELETE (policies_endpoint +:+ "/" +:+ py_str i) None;
    when (negb ((status =? 200) || (status =? 204)))
      (fail_json ("Failed to delete policy '" +:+ name +:+ "': HTTP " +:+
                  str_of_Z status));;
    exit_json true (entity []));;
  payload ← _build_policy_payload;
  when (is_None existing) (
    when (check_mode self) (
      pol ← lift (subscript payload "policy");
      exit_json true (entity [pol]));;
    '(status, result) ← _api_request POST policies_endpoint (Some payload);
    when (negb (status =? 201)) (
      detail ← lift (error_detail result);
      fail_json ("Failed to create policy '" +:+ name +:+ "': HTTP " +:+
                 str_of_Z status +:+ " - " +:+ py_str detail));;
    exit_json true (entity [result]));;
  differs ← lift (_needs_update existing payload);
  when (negb differs) (exit_json false (entity [existing]));;
  when (check_mode self) (
    pol ← lift (subscript payload "policy");
    exit_json true (entity [pol]));;
  i ← lift (subscript existing "id");
  '(status, result) ←
    _api_request PUT (policies_endpoint +:+ "/" +:+ py_str i) (Some payload);
  when (negb (status =? 200)) (
    detail ← lift (error_detail result);
    fail_json ("Failed to update policy '" +:+ name +:+ "': HTTP " +:+
               str_of_Z status +:+ " - " +:+ py_str detail));;
  exit_json true (entity [result]).

End Methods.
End Engine.

Arguments World : clear implicits.
Arguments M : clear implicits.

(** ** A reference Satellite

    The server is not part of the module; this is a small deterministic
    model of the REST surface it consumes, used as a concrete environment:
    listings honour [per_page] (first page only, as requested), a policy is
    stored as the attributes last written to it, and its associations are
    reported as nested objects carrying an [id]. *)

Module Satellite.

(** A body on the wire, identified with what it decodes to. *)
Inductive wire :=
| WEmpty
| WJson (v : json)
| WGarbage (s : string).

Record row := Row {
  row_id : N;
  row_attrs : list (string * json)
}.

Record server := {
  base : string;                 (* the URL prefix it is reached at *)
  writable : bool;               (* [false]: writes are answered 403 *)
  scap_contents : list (N * string);               (* id, title *)
  scap_content_profiles : list (N * (string * string));
                                 (* id, (profile_id, title of its content) *)
  organizations : list (N * string);               (* id, name *)
  locations : list (N * string);                   (* id, name *)
  hostgroups : list (N * string);                  (* id, title *)
  policies : list row
}.

Definition jid (i : N) : json := JInt (Z.of_N i).

Definition labelled (label : string) (x : N * string) : json :=
  JObj [("id", jid x.1); (label, JStr x.2)].

Definition render_profile (x : N * (string * string)) : json :=
  JObj [("id", jid x.1); ("profile_id", JStr x.2.1);
        ("scap_content", JObj [("title", JStr x.2.2)])].

Definition nested (ids : option json) : json :=
  match ids with
  | Some (JList l) => JList ((fun i => JObj [("id", i)]) <$> l)
  | _ => JList []
  end.

Definition render_policy (r : row) : json :=
  JObj (("id", jid (row_id r))
        :: ("organizations", nested (assoc "organization_ids" (row_attrs r)))
        :: ("locations", nested (assoc "location_ids" (row_attrs r)))
        :: ("hostgroups", nested (assoc "hostgroup_ids" (row_attrs r)))
        :: row_attrs r).

Fixpoint strip_prefix (pre s : string) : option string :=
  match pre, s with
  | EmptyString, _ => Some s
  | String a p, String b r => if Ascii.eqb a b then strip_prefix p r else None
  | String _ _, EmptyString => None
  end.

Fixpoint split_query (s : string) : string * option string :=
  match s with
  | EmptyString => (EmptyString, None)
  | String c r =>
      if Ascii.eqb c "?"%char then (EmptyString, Some r)
      else let '(a, q) := split_query r in (String c a, q)
  end.

Definition parse_N (s : string) : option N :=
  match s with
  | EmptyString => None
  | _ => N.of_uint <$> NilZero.uint_of_string s
  end.

(** Foreman's default page size when [per_page] is not given. *)
Definition default_per_page : N := 20%N.

Definition per_page (query : option string) : N :=
  match query with
  | Some q =>
      match strip_prefix "per_page=" q with
      | Some digits => default default_per_page (parse_N digits)
      | None => default_per_page
      end
  | None => default_per_page
  end.

Definition collection (s : server) (path : string) : option (list json) :=
  if String.eqb path "/api/v2/organizations"
  then Some (labelled "name" <$> organizations s)
  else if String.eqb path "/api/v2/locations"
  then Some (labelled "name" <$> locations s)
  else if String.eqb path "/api/v2/hostgroups"
  then Some (labelled "title" <$> hostgroups s)
  else if String.eqb path "/api/v2/compliance/scap_contents"
  then Some (labelled "title" <$> scap_contents s)
  else if String.eqb path "/api/v2/compliance/scap_content_profiles"
  then Some (render_profile <$> scap_content_profiles s)
  else if String.eqb path "/api/v2/compliance/policies"
  then Some (render_policy <$> policies s)
  else None.

Definition fresh (rows : list row) : N :=
  N.succ (foldr N.max 0%N (row_id <$> rows)).

Definition posted_policy (body : option wire) : option (list (string * json)) :=
  match body with
  | Some (WJson (JObj kv)) =>
      match assoc "policy" kv with
      | Some (JObj attrs) => Some attrs
      | _ => None
      end
  | _ => None
  end.

Definition with_policies (s : server) (rows : list row) : server :=
  {| base := base s; writable := writable s;
     scap_contents := scap_contents s;
     scap_content_profiles := scap_content_profiles s;
     organizations := organizations s; locations := locations s;
     hostgroups := hostgroups s; policies := rows |}.

Definition answer (status : Z) (v : json) : fetched wire :=
  Fetched (Some (WJson v)) status (Some "OK") None.

(** An HTTP error: no response object, the body is left in [info]. *)
Definition refuse (status : Z) (message : string) : fetched wire :=
  Fetched None status (Some "HTTP Error")
          (Some (WJson (JObj [("error", JObj [("message", JStr message)])]))).

Definition unreachable : fetched wire :=
  Fetched None (-1) (Some "Name or service not known") None.

Definition has_id (i : N) (r : row) : bool := N.eqb (row_id r) i.

Definition write (s : server) (m : method) (path : string)
  (body : option wire) : server * fetched wire :=
  match strip_prefix "/api/v2/compliance/policies" path with
  | Some EmptyString =>
      match m, posted_policy body with
      | POST, Some attrs =>
          let r := Row (fresh (policies s)) attrs in
          (with_policies s (policies s ++ [r]), answer 201 (render_policy r))
      | POST, None => (s, refuse 422 "Unprocessable entity")
      | _, _ => (s, refuse 404 "Not found")
      end
  | Some (String "/" digits) =>
      match parse_N digits with
      | Some i =>
          if existsb (has_id i) (policies s)
          then match m, posted_policy body with
               | PUT, Some attrs =>
                   let rows :=
                     (fun r => if has_id i r then Row i attrs else r)
                       <$> policies s in
                   (with_policies s rows, answer 200 (render_policy (Row i attrs)))
               | PUT, None => (s, refuse 422 "Unprocessable entity")
               | DELETE, _ =>
                   (with_policies s
                      (filter (fun r => has_id i r = false) (policies s)),
                    answer 200 (JObj [("id", jid i)]))
               | _, _ => (s, refuse 404 "Not found")
               end
          else (s, refuse 404 "Not found")
      | None => (s, refuse 404 "Not found")
      end
  | _ => (s, refuse 404 "Not found")
  end.

Definition fetch (s : server) (c : credentials) (m : method) (url : string)
  (body : option wire) : server * fetched wire :=
  match strip_prefix (base s) url with
  | None => (s, unreachable)
  | Some target =>
      match m with
      | GET =>
          let '(path, query) := split_query target in
          match collection s path with
          | Some items =>
              (s, answer 200
                    (JObj [("results",
                            JList (take (N.to_nat (per_page query)) items))]))
          | None => (s, refuse 404 "Not found")
          end
      | _ =>
          if writable s then write s m target body
          else (s, refuse 403 "Forbidden")
      end
  end.

Definition transport : Transport := {|
  text := wire;
  text_truthy b := match b with WEmpty => false | _ => true end;
  json_loads b := match b with WJson v => Some v | _ => None end;
  json_dumps := WJson;
  Srv := server;
  fetch_url := fetch
|}.

End Satellite.

(** ** A canned transport

    A server that answers every request with one fixed response; it gives
    the responses that the reference Satellite never produces. *)

Module Canned.

Definition transport : Transport := {|
  text := Satellite.wire;
  text_truthy b := match b with Satellite.WEmpty => false | _ => true end;
  json_loads b := match b with Satellite.WJson v => Some v | _ => None end;
  json_dumps := Satellite.WJson;
  Srv := fetched Satellite.wire;
  fetch_url s _ _ _ _ := (s, s)
|}.

End Canned.

(** ** Vocabulary of the properties *)

(** [needle] occurs in [hay]. *)
Definition contains (needle hay : string) : Prop :=
  exists a b, hay = a +:+ needle +:+ b.

Definition is_dict (v : json) : Prop :=
  match v with JObj _ => True | _ => False end.

(** The [changed] flag an outcome reports, if it reports one. *)
Definition changed_flag {A} (r : res A) : option bool :=
  match r with
  | Stop (ExitJson c _) => Some c
  | _ => None
  end.

(** A stop that is a failure ([fail_json] or an exception), not an exit. *)
Definition aborts (s : stop) : Prop :=
  match s with
  | ExitJson _ _ => False
  | _ => True
  end.

(** An item of a listing whose [key] field is the string [n]. *)
Definition keyed (key n : string) (item : json) : bool :=
  match subscript item key with
  | Ok k => py_eq k (JStr n)
  | Stop _ => false
  end.

(** Python truthiness. *)
Definition py_truthy (v : json) : bool :=
  match v with
  | JNull => false
  | JBool b => b
  | JInt z => negb (z =? 0)
  | JStr s => negb (String.eqb s "")
  | JList l => match l with [] => false | _ => true end
  | JObj kv => match kv with [] => false | _ => true end
  end.

(** The three schedule keys, the one that a period selects, and the
    parameter that the user gave for it. *)
Definition schedule_keys : list string := ["weekday"; "day_of_month"; "cron_line"].

Definition selected_key (per : period_t) : string :=
  match per with
  | weekly => "weekday"
  | monthly => "day_of_month"
  | custom => "cron_line"
  end.

Definition schedule_param (p : Params) (per : period_t) : option json :=
  match per with
  | weekly => (fun d => JStr (weekday_str d)) <$> weekday p
  | monthly => JInt <$> day_of_month p
  | custom => JStr <$> cron_line p
  end.

(** ** Vocabulary of the Diff Engine *)

(** The field [k] of a dictionary, [d] when it is missing. *)
Definition field (o : json) (k : string) (d : json) : json :=
  match o with
  | JObj kv => default d (assoc k kv)
  | _ => d
  end.

(** The fields compared one by one, with the default each is read with. *)
Definition compared_fields : list (string * json) :=
  [ ("description", JStr ""); ("scap_content_id", JNull);
    ("scap_content_profile_id", JNull); ("period", JNull);
    ("deploy_by", JNull) ].

(** The schedule field that the desired period makes active, if any. *)
Definition active_schedule (desired : json) : option string :=
  let per := field desired "period" JNull in
  if py_eq per (JStr "weekly") then Some "weekday"
  else if py_eq per (JStr "monthly") then Some "day_of_month"
  else if py_eq per (JStr "custom") then Some "cron_line"
  else None.

Definition field_differs (existing desired : json) (kd : string * json) : Prop :=
  py_eq (field existing kd.1 kd.2) (field desired kd.1 kd.2) = false.

(** The remote policy lists, under [k], objects carrying the integer ids
    [ids]; the desired policy holds, under [k], the integer ids [ids]. *)
Definition remote_ids (existing : json) (k : string) (ids : list Z) : Prop :=
  exists objs, py_get existing k (JList []) = Ok (JList objs) /\
               Forall2 (fun o i => subscript o "id" = Ok (JInt i)) objs ids.

Definition desired_ids (desired : json) (k : string) (ids : list Z) : Prop :=
  py_get desired k (JList []) = Ok (JList (JInt <$> ids)).

(** Equality of two lists of ids as sets. *)
Definition same_members (a b : list Z) : Prop := forall x, x ∈ a <-> x ∈ b.

(** The specification of the Diff Engine: some compared field differs, or
    the active schedule field does, or the ids of some association are not
    the same, for the notion [same_ids] of being the same. *)
Definition differs (same_ids : list Z -> list Z -> Prop)
  (existing desired : json) (eo el eh od ld hd : list Z) : Prop :=
  Exists (field_differs existing desired) compared_fields \/
  (exists k, active_schedule desired = Some k /\
             field_differs existing desired (k, JNull)) \/
  ~ same_ids eo od \/ ~ same_ids el ld \/ ~ same_ids eh hd.

(** ** The reconciler as a decision followed by an action

    [run] interleaves deciding what to do with doing it.  [plan_of] is the
    deciding part, which does not look at [check_mode]; [simulate] and
    [perform] are what check mode and apply mode do with the decision. *)

Inductive plan :=
| Nothing                                  (* absent, and not found *)
| Remove (existing : json)                 (* absent, found *)
| Create (payload : json)                  (* present, not found *)
| Keep (existing : json)                   (* present, found, no difference *)
| Update (existing payload : json).        (* present, found, differs *)

Section Plans.
Context {T : Transport}.
Variable self : AnsibleModule.

Definition plan_of : M T plan :=
  let p := params self in
  existing ← _find_policy self (name p);
  match state p with
  | absent => mret (if is_None existing then Nothing else Remove existing)
  | present =>
      payload ← _build_policy_payload self;
      if is_None existing then mret (Create payload)
      else
        differs ← lift (_needs_update existing payload);
        mret (if differs : bool
              then Update existing payload else Keep existing)
  end.

Definition simulate (pl : plan) : M T () :=
  match pl with
  | Nothing => exit_json false (entity [])
  | Remove _ => exit_json true (entity [])
  | Keep existing => exit_json false (entity [existing])
  | Create payload | Update _ payload =>
      pol ← lift (subscript payload "policy");
      exit_json true (entity [pol])
  end.

Definition perform (pl : plan) : M T () :=
  let name := name (params self) in
  match pl with
  | Nothing => exit_json false (entity [])
  | Keep existing => exit_json false (entity [existing])
  | Remove existing =>
      i ← lift (subscript existing "id");
      '(status, result) ←
        _api_request self DELETE (policies_endpoint +:+ "/" +:+ py_str i) None;
      when (negb ((status =? 200) || (status =? 204)))
        (fail_json ("Failed to delete policy '" +:+ name +:+ "': HTTP " +:+
                    str_of_Z status));;
      exit_json true (entity [])
  | Create payload =>
      '(status, result) ← _api_request self POST policies_endpoint (Some payload);
      when (negb (status =? 201)) (
        detail ← lift (error_detail result);
        fail_json ("Failed to create policy '" +:+ name +:+ "': HTTP " +:+
                   str_of_Z status +:+ " - " +:+ py_str detail));;
      exit_json true (entity [result])
  | Update existing payload =>
      i ← lift (subscript existing "id");
      '(status, result) ←
        _api_request self PUT (policies_endpoint +:+ "/" +:+ py_str i)
                     (Some payload);
      when (negb (status =? 200)) (
        detail ← lift (error_detail result);
        fail_json ("Failed to update policy '" +:+ name +:+ "': HTTP " +:+
                   str_of_Z status +:+ " - " +:+ py_str detail));;
      exit_json true (entity [result])
  end.

(** The five reference resolutions of [_build_policy_payload], in the
    order in which it performs them, each with its result dropped. *)
Definition void {A} (m : M T A) : M T () := m ≫= fun _ => mret ().

Definition resolution_steps : list (M T ()) :=
  let p := params self in
  [ void (_resolve_scap_content self (scap_content p));
    void (_resolve_scap_profile self (scap_content p) (scap_content_profile p));
    void (_resolve_ids self "/api/v2/organizations" (organizations p) "name");
    void (_resolve_ids self "/api/v2/locations" (locations p) "name");
    void (match hostgroups p return M T (list json) with
          | [] => mret []
          | hgs => _resolve_ids self "/api/v2/hostgroups" (Some hgs) "title"
          end) ].

(** Run steps one after the other, as long as they return. *)
Fixpoint sequence (steps : list (M T ())) : M T () :=
  match steps with
  | [] => mret ()
  | step :: rest => step;; sequence rest
  end.

End Plans.

(** ** Sample inputs

    The scenario of the specification: policy [P1], weekly on monday,
    content [C1] with profile [prof-x], one organization and one
    location.  The server lists two organizations named [Org1]. *)

Module Sample.

Definition server : Satellite.server := {|
  Satellite.base := "https://satellite.example.com";
  Satellite.writable := true;
  Satellite.scap_contents := [(1%N, "C1")];
  Satellite.scap_content_profiles := [(7%N, ("prof-x", "C1"))];
  Satellite.organizations := [(3%N, "Org1"); (4%N, "Org2"); (6%N, "Org1")];
  Satellite.locations := [(5%N, "Loc1")];
  Satellite.hostgroups := [(9%N, "hg-base/hg-rhel-9")];
  Satellite.policies :=
    [Satellite.Row 2 [("name", JStr "Other"); ("description", JStr "")]]
|}.

(** The same server, read-only for this user. *)
Definition locked : Satellite.server := {|
  Satellite.base := Satellite.base server;
  Satellite.writable := false;
  Satellite.scap_contents := Satellite.scap_contents server;
  Satellite.scap_content_profiles := Satellite.scap_content_profiles server;
  Satellite.organizations := Satellite.organizations server;
  Satellite.locations := Satellite.locations server;
  Satellite.hostgroups := Satellite.hostgroups server;
  Satellite.policies := Satellite.policies server
|}.

Definition world (s : Satellite.server) : World Satellite.transport :=
  @Build_World Satellite.transport s [].

Definition desired : Params := {|
  server_url := "https://satellite.example.com/";
  username := "admin";
  password := "changeme";
  validate_certs := true;
  name := "P1";
  description := None;
  scap_content := Some "C1";
  scap_content_profile := Some "prof-x";
  deploy_by := Some ansible;
  period := Some weekly;
  weekday := Some monday;
  day_of_month := None;
  cron_line := None;
  organizations := Some ["Org1"];
  locations := Some ["Loc1"];
  hostgroups := [];
  state := present
|}.

Definition with_state (st : state_t) (p : Params) : Params := {|
  server_url := server_url p; username := username p;
  password := password p; validate_certs := validate_certs p;
  name := name p; description := description p;
  scap_content := scap_content p;
  scap_content_profile := scap_content_profile p;
  deploy_by := deploy_by p; period := period p; weekday := weekday p;
  day_of_month := day_of_month p; cron_line := cron_line p;
  organizations := organizations p; locations := locations p;
  hostgroups := hostgroups p; state := st
|}.

Definition module (p : Params) (check : bool) : AnsibleModule :=
  {| params := p; check_mode := check |}.

(** [desired] with other organizations or another schedule. *)
Definition with_organizations (orgs : list string) (p : Params) : Params := {|
  server_url := server_url p; username := username p;
  password := password p; validate_certs := validate_certs p;
  name := name p; description := description p;
  scap_content := scap_content p;
  scap_content_profile := scap_content_profile p;
  deploy_by := deploy_by p; period := period p; weekday := weekday p;
  day_of_month := day_of_month p; cron_line := cron_line p;
  organizations := Some orgs; locations := locations p;
  hostgroups := hostgroups p; state := state p
|}.

Definition monthly_on (day : Z) (p : Params) : Params := {|
  server_url := server_url p; username := username p;
  password := password p; validate_certs := validate_certs p;
  name := name p; description := description p;
  scap_content := scap_content p;
  scap_content_profile := scap_content_profile p;
  deploy_by := deploy_by p; period := Some monthly; weekday := None;
  day_of_month := Some day; cron_line := None;
  organizations := organizations p; locations := locations p;
  hostgroups := hostgroups p; state := state p
|}.

(** A remote policy and a desired policy that agree on every field; the
    organization is held once remotely and asked for twice. *)
Definition remote_policy : json :=
  JObj [("id", JInt 2); ("name", JStr "P1"); ("description", JStr "");
        ("scap_content_id", JInt 1); ("scap_content_profile_id", JInt 7);
        ("period", JStr "weekly"); ("weekday", JStr "monday");
        ("deploy_by", JStr "ansible");
        ("organizations", JList [JObj [("id", JInt 4); ("name", JStr "Org2")]]);
        ("locations", JList [JObj [("id", JInt 5); ("name", JStr "Loc1")]]);
        ("hostgroups", JList [])].

Definition desired_policy : json :=
  JObj [("name", JStr "P1"); ("description", JStr "");
        ("scap_content_id", JInt 1); ("scap_content_profile_id", JInt 7);
        ("period", JStr "weekly"); ("deploy_by", JStr "ansible");
        ("organization_ids", JList [JInt 4; JInt 4]);
        ("location_ids", JList [JInt 5]);
        ("hostgroup_ids", JList []);
        ("weekday", JStr "monday")].

(** What [_get_all] lists for the organizations, and the dictionary that
    [_resolve_ids] builds from it. *)
Definition org_items : list json :=
  [ JObj [("id", JInt 3); ("name", JStr "Org1")];
    JObj [("id", JInt 4); ("name", JStr "Org2")];
    JObj [("id", JInt 6); ("name", JStr "Org1")] ].

Definition org_lookup : gmap hkey json :=
  <[KStr "Org1" := JInt 6]>
    (<[KStr "Org2" := JInt 4]> (<[KStr "Org1" := JInt 3]> ∅)).

End Sample.

(** ** Vocabulary of the further properties *)

(** [s] ends with a slash; the string of [n] slashes. *)
Fixpoint ends_with_slash (s : string) : bool :=
  match s with
  | EmptyString => false
  | String c EmptyString => Ascii.eqb c "/"%char
  | String _ r => ends_with_slash r
  end.

Fixpoint slashes (n : nat) : string :=
  match n with
  | O => EmptyString
  | S n => String "/"%char (slashes n)
  end.

(** The request that [_get_all] sends for [endpoint]. *)
Definition listing_request (self : AnsibleModule) (endpoint : string) : Request :=
  {| rq_method := GET;
     rq_url := self_server_url self +:+ endpoint +:+ "?per_page=1000";
     rq_data := None |}.

(** The field [k] of [item] is there and equal, respectively not equal,
    to [x]. *)
Definition valued (k : string) (x : json) (item : json) : Prop :=
  exists v, subscript item k = Ok v /\ py_eq v x = true.

Definition valued_otherwise (k : string) (x : json) (item : json) : Prop :=
  exists v, subscript item k = Ok v /\ py_eq v x = false.

(** An item that [_resolve_ids] can index: it has the key field, with a
    hashable value, and an [id]. *)
Definition indexable (key : string) (item : json) : Prop :=
  exists k i h, subscript item key = Ok k /\ subscript item "id" = Ok i /\
                to_key k = Ok h.

(** The title of the content that a listed profile belongs to, read the
    way [_resolve_scap_profile] reads it: a profile without [scap_content]
    belongs to no content.  A profile is well shaped when it is a
    dictionary whose [scap_content], if any, is a dictionary. *)
Definition profile_content (profile : json) : json :=
  field (field profile "scap_content" (JObj [])) "title" JNull.

Definition profile_shaped (profile : json) : Prop :=
  exists kv, profile = JObj kv /\
             match assoc "scap_content" kv with
             | Some (JObj _) | None => True
             | Some _ => False
             end.

Definition profile_matches (title pid : json) (profile : json) : bool :=
  py_eq (profile_content profile) title &&
  py_eq (field profile "profile_id" JNull) pid.

(** The request that addresses the located policy by its [id], when it
    has one, and the request that carries out a plan, when it needs one. *)
Definition request_at_id (self : AnsibleModule) (meth : method)
  (existing : json) (data : option json) : option Request :=
  match subscript existing "id" with
  | Ok i => Some {| rq_method := meth;
                    rq_url := self_server_url self +:+ policies_endpoint +:+
                              "/" +:+ py_str i;
                    rq_data := data |}
  | Stop _ => None
  end.

Definition plan_request (self : AnsibleModule) (pl : plan) : option Request :=
  match pl with
  | Nothing | Keep _ => None
  | Remove existing => request_at_id self DELETE existing None
  | Create payload =>
      Some {| rq_method := POST;
              rq_url := self_server_url self +:+ policies_endpoint;
              rq_data := Some payload |}
  | Update existing payload => request_at_id self PUT existing (Some payload)
  end.

(** The statuses that the module takes for success, per method. *)
Definition accepts (meth : method) (status : Z) : bool :=
  match meth with
  | GET => status =? 200
  | POST => status =? 201
  | PUT => status =? 200
  | DELETE => (status =? 200) || (status =? 204)
  end.

(** The fields of the remote policy that [_needs_update] reads when the
    desired policy is [desired]. *)
Definition compared_keys (desired : json) : list string :=
  ["description"; "scap_content_id"; "scap_content_profile_id"; "period";
   "deploy_by"; "organizations"; "locations"; "hostgroups"] ++
  option_list (active_schedule desired).

(** ** Further sample inputs *)

Module Cases.

(** A server that lists two contents titled [C1], the profile [prof-x]
    in two contents, and two policies named [P1]. *)
Definition twins : Satellite.server := {|
  Satellite.base := Satellite.base Sample.server;
  Satellite.writable := true;
  Satellite.scap_contents := [(5%N, "C0"); (1%N, "C1"); (9%N, "C1")];
  Satellite.scap_content_profiles :=
    [(8%N, ("prof-x", "C0")); (7%N, ("prof-x", "C1")); (6%N, ("prof-y", "C1"))];
  Satellite.organizations := Satellite.organizations Sample.server;
  Satellite.locations := Satellite.locations Sample.server;
  Satellite.hostgroups := Satellite.hostgroups Sample.server;
  Satellite.policies :=
    [Satellite.Row 2 [("name", JStr "Other")];
     Satellite.Row 3 [("name", JStr "P1"); ("description", JStr "first")];
     Satellite.Row 4 [("name", JStr "P1"); ("description", JStr "second")]]
|}.

(** A server whose first policy has no name. *)
Definition nameless : Satellite.server := {|
  Satellite.base := Satellite.base Sample.server;
  Satellite.writable := true;
  Satellite.scap_contents := Satellite.scap_contents Sample.server;
  Satellite.scap_content_profiles := Satellite.scap_content_profiles Sample.server;
  Satellite.organizations := Satellite.organizations Sample.server;
  Satellite.locations := Satellite.locations Sample.server;
  Satellite.hostgroups := Satellite.hostgroups Sample.server;
  Satellite.policies :=
    [Satellite.Row 2 [("description", JStr "no name")];
     Satellite.Row 3 [("name", JStr "P1")]]
|}.

(** What the module writes for [Sample.desired] on [Sample.server]. *)
Definition policy_P1 : list (string * json) :=
  [("name", JStr "P1"); ("description", JStr "");
   ("scap_content_id", JInt 1); ("scap_content_profile_id", JInt 7);
   ("period", JStr "weekly"); ("deploy_by", JStr "ansible");
   ("organization_ids", JList [JInt 6]);
   ("location_ids", JList [JInt 5]);
   ("hostgroup_ids", JList []);
   ("weekday", JStr "monday")].

Definition payload_P1 : json := JObj [("policy", JObj policy_P1)].

(** [Sample.server] once it holds that policy. *)
Definition settled : Satellite.server := {|
  Satellite.base := Satellite.base Sample.server;
  Satellite.writable := true;
  Satellite.scap_contents := Satellite.scap_contents Sample.server;
  Satellite.scap_content_profiles := Satellite.scap_content_profiles Sample.server;
  Satellite.organizations := Satellite.organizations Sample.server;
  Satellite.locations := Satellite.locations Sample.server;
  Satellite.hostgroups := Satellite.hostgroups Sample.server;
  Satellite.policies :=
    [Satellite.Row 2 [("name", JStr "Other"); ("description", JStr "")];
     Satellite.Row 3 policy_P1]
|}.

(** Canned responses: an internal server error, a body that is not JSON,
    and a listing whose second item has no name. *)
Definition canned (f : fetched Satellite.wire) : World Canned.transport :=
  @Build_World Canned.transport f [].

Definition failing : fetched Satellite.wire :=
  Fetched None 500 (Some "HTTP Error 500: Internal Server Error")
          (Some (Satellite.WJson
                   (JObj [("error", JObj [("message", JStr "boom")])]))).

Definition garbled : fetched Satellite.wire :=
  Fetched (Some (Satellite.WGarbage "<html>Bad gateway</html>")) 200
          (Some "OK") None.

Definition keyless : fetched Satellite.wire :=
  Fetched (Some (Satellite.WJson
                   (JObj [("results",
                           JList [JObj [("id", JInt 1); ("name", JStr "A")];
                                  JObj [("id", JInt 2)]])])))
          200 (Some "OK") None.

End Cases.

(** * Properties *)

Section Properties.
Context {T : Transport}.
Implicit Types (w : World T) (self : AnsibleModule).

(** ** The monad *)

Ltac mrun :=
  cbv beta iota zeta
      delta [mbind M_bind mret M_ret lift when exit_json fail_json].

Lemma bind_unfold {A B} (m : M T A) (f : A -> M T B) w :
  (m ≫= f) w =
  match m w with
  | (Ok a, w') => f a w'
  | (Stop s, w') => (Stop s, w')
  end.
Proof. reflexivity. Qed.

Lemma bind_lift {A B} (r : res A) (f : A -> M T B) w :
  (lift r ≫= f) w =
  match r with
  | Ok a => f a w
  | Stop s => (Stop s, w)
  end.
Proof. by destruct r. Qed.

(** [w'] extends the log of [w] by [GET] requests only: no [POST], [PUT]
    or [DELETE] was issued in between. *)
Definition only_reads w w' : Prop :=
  exists reads, sent w' = sent w ++ reads /\
                Forall (fun r => rq_method r = GET) reads.

(** A computation that issues no mutating request. *)
Definition read_only {A} (m : M T A) : Prop :=
  forall w, only_reads w (m w).2.

Lemma only_reads_refl w : only_reads w w.
Proof. exists []. by rewrite app_nil_r. Qed.

Lemma only_reads_trans w1 w2 w3 :
  only_reads w1 w2 -> only_reads w2 w3 -> only_reads w1 w3.
Proof.
  intros (r1 & H1 & Hr1) (r2 & H2 & Hr2). exists (r1 ++ r2).
  split; [by rewrite H2, H1, app_assoc | by apply Forall_app].
Qed.

Lemma only_reads_writes w w' : only_reads w w' -> writes w' = writes w.
Proof.
  intros (reads & Hsent & Hreads). unfold writes. rewrite Hsent, filter_app.
  assert (filter (fun r => mutating r = true) reads = []) as ->;
    [| by rewrite app_nil_r].
  clear Hsent. induction Hreads as [|r reads Hr _ IH]; [done |].
  rewrite filter_cons, IH. case_decide as Hm; [| done].
  unfold mutating in Hm. by rewrite Hr in Hm.
Qed.

Lemma read_only_ret {A} (a : A) : read_only (mret a).
Proof. intros w. apply only_reads_refl. Qed.

Lemma read_only_lift {A} (r : res A) : read_only (lift r).
Proof. intros w. apply only_reads_refl. Qed.

Lemma read_only_bind {A B} (m : M T A) (f : A -> M T B) :
  read_only m -> (forall a, read_only (f a)) -> read_only (m ≫= f).
Proof.
  intros Hm Hf w. rewrite bind_unfold.
  specialize (Hm w). destruct (m w) as [[a|s] w']; simpl in *; [| done].
  eapply only_reads_trans; [done | apply Hf].
Qed.

(** [_api_request] logs exactly the request it was asked for. *)
Lemma api_request_sent self meth endpoint data w :
  sent (_api_request self meth endpoint data w).2 =
  sent w ++ [{| rq_method := meth;
                rq_url := self_server_url self +:+ endpoint;
                rq_data := data |}].
Proof.
  unfold _api_request.
  destruct (fetch_url _ _ _ _ _) as [s' f]. by case_match.
Qed.

Lemma read_only_GET self endpoint data :
  read_only (_api_request self GET endpoint data).
Proof.
  intros w. eexists. split; [apply api_request_sent | by constructor].
Qed.

Lemma read_only_get_all self endpoint : read_only (_get_all self endpoint).
Proof.
  apply read_only_bind; [apply read_only_GET |].
  intros [status result]. case_match; apply read_only_lift.
Qed.

Lemma read_only_resolve_ids self endpoint names key :
  read_only (_resolve_ids self endpoint names key).
Proof.
  apply read_only_bind; [apply read_only_get_all | intros results].
  apply read_only_bind; [apply read_only_lift | intros lookup].
  apply read_only_lift.
Qed.

Lemma read_only_find_policy self name : read_only (_find_policy self name).
Proof.
  apply read_only_bind; [apply read_only_get_all | intros ?].
  apply read_only_lift.
Qed.

Lemma read_only_resolve_scap_content self title :
  read_only (_resolve_scap_content self title).
Proof.
  apply read_only_bind; [apply read_only_get_all | intros ?].
  apply read_only_bind; [apply read_only_lift | intros [i|]].
  - apply read_only_ret.
  - apply read_only_lift.
Qed.

Lemma read_only_resolve_scap_profile self title pid :
  read_only (_resolve_scap_profile self title pid).
Proof.
  apply read_only_bind; [apply read_only_get_all | intros ?].
  apply read_only_bind; [apply read_only_lift | intros [i|]].
  - apply read_only_ret.
  - apply read_only_lift.
Qed.

Lemma read_only_build_policy_payload self :
  read_only (_build_policy_payload self).
Proof.
  unfold _build_policy_payload.
  apply read_only_bind; [apply read_only_resolve_scap_content | intros ?].
  apply read_only_bind; [apply read_only_resolve_scap_profile | intros ?].
  apply read_only_bind; [apply read_only_resolve_ids | intros ?].
  apply read_only_bind; [apply read_only_resolve_ids | intros ?].
  apply read_only_bind.
  - destruct (hostgroups _); [apply read_only_ret | apply read_only_resolve_ids].
  - intros ?. apply read_only_ret.
Qed.

Lemma read_only_plan_of self : read_only (plan_of self).
Proof.
  unfold plan_of.
  apply read_only_bind; [apply read_only_find_policy | intros existing].
  destruct (state _); [| apply read_only_ret].
  apply read_only_bind; [apply read_only_build_policy_payload | intros payload].
  destruct (is_None existing); [apply read_only_ret |].
  apply read_only_bind; [apply read_only_lift | intros ?; apply read_only_ret].
Qed.

(** Check mode touches nothing. *)
Lemma simulate_stays pl w : (simulate pl w).2 = w.
Proof.
  destruct pl; try done; unfold simulate; rewrite bind_lift; by case_match.
Qed.

(** ** Reference Resolver *)

Lemma to_key_str k h n :
  to_key k = Ok h -> (h = KStr n <-> py_eq k (JStr n) = true).
Proof.
  destruct k; unfold raise; simpl; intros Hk; simplify_eq;
    try (split; intros; discriminate).
  split; [intros [= ->]; apply String.eqb_refl |].
  intros Heq. apply String.eqb_eq in Heq. by subst.
Qed.

Lemma dict_of_items_app key front rest d lookup :
  dict_of_items key (front ++ rest) d = Ok lookup ->
  exists d', dict_of_items key front d = Ok d' /\
             dict_of_items key rest d' = Ok lookup.
Proof.
  revert d. induction front as [|item front IH]; intros d; simpl.
  - eauto.
  - destruct (subscript item key) as [k|]; simpl; [|done].
    destruct (subscript item "id") as [v|]; simpl; [|done].
    destruct (to_key k) as [h|]; simpl; [|done].
    apply IH.
Qed.

(** Items with another key leave the binding of [n] alone. *)
Lemma dict_of_items_other key n back d lookup :
  dict_of_items key back d = Ok lookup ->
  Forall (fun x => keyed key n x = false) back ->
  lookup !! KStr n = d !! KStr n.
Proof.
  revert d. induction back as [|item back IH]; intros d; simpl.
  - by intros [= ->].
  - intros Hd Hall. apply Forall_cons in Hall as [Hitem Hall].
    unfold keyed in Hitem.
    destruct (subscript item key) as [k|]; simpl in *; [|done].
    destruct (subscript item "id") as [v|]; simpl in *; [|done].
    destruct (to_key k) as [h|] eqn:Hk; simpl in *; [|done].
    rewrite (IH _ Hd Hall). apply lookup_insert_ne.
    intros ->. apply (to_key_str _ _ n) in Hk.
    destruct Hk as [Hk _]. by rewrite Hk in Hitem.
Qed.

(** The binding of a key is the [id] of the last item that has it. *)
Lemma dict_of_items_last key n i front item back d lookup :
  dict_of_items key (front ++ item :: back) d = Ok lookup ->
  subscript item key = Ok (JStr n) ->
  subscript item "id" = Ok i ->
  Forall (fun x => keyed key n x = false) back ->
  lookup !! KStr n = Some i.
Proof.
  intros Hd Hk Hi Hback.
  apply dict_of_items_app in Hd as (d' & _ & Hd). simpl in Hd.
  rewrite Hk, Hi in Hd. simpl in Hd.
  rewrite (dict_of_items_other _ _ _ _ _ Hd Hback).
  apply lookup_insert_eq.
Qed.

Lemma resolve_loop_found lookup key endpoint names acc :
  Forall (fun x => is_Some (lookup !! KStr x)) names ->
  exists ids,
    resolve_loop lookup key endpoint names acc = Ok (acc ++ ids) /\
    Forall2 (fun x i => lookup !! KStr x = Some i) names ids.
Proof.
  revert acc. induction names as [|x names IH]; intros acc Hall; simpl.
  - exists []. by rewrite app_nil_r.
  - apply Forall_cons in Hall as [[i Hi] Hall]. rewrite Hi.
    destruct (IH (acc ++ [i]) Hall) as (ids & -> & Hids).
    exists (i :: ids). split; [by rewrite <- app_assoc | by constructor].
Qed.

Lemma resolve_loop_missing lookup key endpoint found n rest acc :
  Forall (fun x => is_Some (lookup !! KStr x)) found ->
  lookup !! KStr n = None ->
  resolve_loop lookup key endpoint (found ++ n :: rest) acc =
  Stop (FailJson ("Could not find " +:+ key +:+ " '" +:+ n +:+ "' at " +:+
                  endpoint)).
Proof.
  revert acc. induction found as [|x found IH]; intros acc Hall Hn; simpl.
  - by rewrite Hn.
  - apply Forall_cons in Hall as [[i Hi] Hall]. rewrite Hi. by apply IH.
Qed.

Lemma first_missing (lookup : gmap hkey json) names :
  Exists (fun n => lookup !! KStr n = None) names ->
  exists found n rest,
    names = found ++ n :: rest /\
    Forall (fun x => is_Some (lookup !! KStr x)) found /\
    lookup !! KStr n = None.
Proof.
  induction names as [|x names IH]; intros Hex; [by apply Exists_nil in Hex |].
  destruct (lookup !! KStr x) as [i|] eqn:Hx.
  - apply Exists_cons in Hex as [Hex | Hex]; [congruence |].
    destruct (IH Hex) as (found & n & rest & -> & Hfound & Hn).
    exists (x :: found), n, rest. repeat split; [| done].
    constructor; [by rewrite Hx | done].
  - by exists [], x, names.
Qed.

Lemma resolve_ids_unfold self endpoint names key results items lookup w w1 :
  _get_all self endpoint w = (Ok results, w1) ->
  py_iter results = Ok items ->
  dict_of_items key items ∅ = Ok lookup ->
  _resolve_ids self endpoint (Some names) key w =
  (resolve_loop lookup key endpoint names [], w1).
Proof.
  intros Hget Hiter Hdict. unfold _resolve_ids.
  rewrite bind_unfold, Hget, bind_lift, Hiter. simpl. by rewrite Hdict.
Qed.

Lemma string_app_cons x (a b : string) : String x a +:+ b = String x (a +:+ b).
Proof. reflexivity. Qed.

Lemma string_app_assoc (a b c : string) : (a +:+ b) +:+ c = a +:+ (b +:+ c).
Proof.
  induction a as [|x a IH]; [done |]. by rewrite !string_app_cons, IH.
Qed.

Lemma string_app_nil_r (a : string) : a +:+ "" = a.
Proof. induction a as [|x a IH]; [done |]. by rewrite string_app_cons, IH. Qed.

(** C8. When some requested name is missing from the name-to-ID mapping of
    the fetched collection, [_resolve_ids] stops with [fail_json] at the
    first such name, returning no ids, and the message holds both that
    name and the endpoint of the collection searched. *)
Theorem resolve_ids_first_missing self endpoint key names results items lookup w w1 :
  _get_all self endpoint w = (Ok results, w1) ->
  py_iter results = Ok items ->
  dict_of_items key items ∅ = Ok lookup ->
  Exists (fun n => lookup !! KStr n = None) names ->
  exists found n rest msg,
    names = found ++ n :: rest /\
    Forall (fun x => is_Some (lookup !! KStr x)) found /\
    lookup !! KStr n = None /\
    _resolve_ids self endpoint (Some names) key w = (Stop (FailJson msg), w1) /\
    contains n msg /\ contains endpoint msg.
Proof.
  intros Hget Hiter Hdict Hex.
  destruct (first_missing _ _ Hex) as (found & n & rest & -> & Hfound & Hn).
  exists found, n, rest. eexists. repeat split; [done | done | | |].
  - rewrite (resolve_ids_unfold _ _ _ _ _ _ _ _ _ Hget Hiter Hdict).
    by rewrite resolve_loop_missing.
  - exists ("Could not find " +:+ key +:+ " '"), ("' at " +:+ endpoint).
    by rewrite !string_app_assoc.
  - exists ("Could not find " +:+ key +:+ " '" +:+ n +:+ "' at "), "".
    by rewrite string_app_nil_r, !string_app_assoc.
Qed.

End Properties.

Lemma resolve_ids_first_missing_witness :
  let self := Sample.module Sample.desired false in
  let w := Sample.world Sample.server in
  exists found n rest msg,
    ["Org2"; "Nope"; "Org1"] = found ++ n :: rest /\
    Forall (fun x => is_Some (Sample.org_lookup !! KStr x)) found /\
    Sample.org_lookup !! KStr n = None /\
    _resolve_ids self "/api/v2/organizations" (Some ["Org2"; "Nope"; "Org1"])
                 "name" w =
    (Stop (FailJson msg), (_get_all self "/api/v2/organizations" w).2) /\
    contains n msg /\ contains "/api/v2/organizations" msg.
Proof.
  intros self w.
  apply (resolve_ids_first_missing (T := Satellite.transport) self
           "/api/v2/organizations" "name" ["Org2"; "Nope"; "Org1"]
           (JList Sample.org_items) Sample.org_items Sample.org_lookup w).
  - vm_compute. reflexivity.
  - reflexivity.
  - reflexivity.
  - apply Exists_cons_tl, Exists_cons_hd. vm_compute. reflexivity.
Defined.

Section LastWins.
Context {T : Transport}.
Implicit Types (w : World T) (self : AnsibleModule).

(** C9. When several listed items share the display key [n], every
    occurrence of [n] among the requested names resolves to the [id] of
    the last such item in listing order, whatever the other names are. *)
Theorem resolve_ids_last_wins self endpoint key names results n i
    front item back lookup w w1 :
  _get_all self endpoint w = (Ok results, w1) ->
  py_iter results = Ok (front ++ item :: back) ->
  dict_of_items key (front ++ item :: back) ∅ = Ok lookup ->
  subscript item key = Ok (JStr n) ->
  subscript item "id" = Ok i ->
  Forall (fun x => keyed key n x = false) back ->
  Forall (fun x => is_Some (lookup !! KStr x)) names ->
  exists ids,
    _resolve_ids self endpoint (Some names) key w = (Ok ids, w1) /\
    length ids = length names /\
    forall j, names !! j = Some n -> ids !! j = Some i.
Proof.
  intros Hget Hiter Hdict Hk Hi Hback Hnames.
  rewrite (resolve_ids_unfold _ _ _ _ _ _ _ _ _ Hget Hiter Hdict).
  destruct (resolve_loop_found lookup key endpoint names [] Hnames)
    as (ids & -> & Hids).
  exists ids. split; [done |]. split.
  - symmetry. by eapply Forall2_length.
  - intros j Hj.
    destruct (Forall2_lookup_l _ _ _ _ _ Hids Hj) as (i' & Hi' & Hlook).
    rewrite (dict_of_items_last _ _ _ _ _ _ _ _ Hdict Hk Hi Hback) in Hlook.
    congruence.
Qed.

End LastWins.

Lemma resolve_ids_last_wins_witness :
  let self := Sample.module Sample.desired false in
  let w := Sample.world Sample.server in
  exists ids,
    _resolve_ids self "/api/v2/organizations" (Some ["Org1"; "Org2"; "Org1"])
                 "name" w =
    (Ok ids, (_get_all self "/api/v2/organizations" w).2) /\
    length ids = 3%nat /\
    forall j, ["Org1"; "Org2"; "Org1"] !! j = Some "Org1" ->
              ids !! j = Some (JInt 6).
Proof.
  intros self w.
  apply (resolve_ids_last_wins (T := Satellite.transport) self
           "/api/v2/organizations" "name" ["Org1"; "Org2"; "Org1"]
           (JList Sample.org_items) "Org1" (JInt 6)
           [JObj [("id", JInt 3); ("name", JStr "Org1")];
            JObj [("id", JInt 4); ("name", JStr "Org2")]]
           (JObj [("id", JInt 6); ("name", JStr "Org1")]) []
           Sample.org_lookup w).
  - vm_compute. reflexivity.
  - reflexivity.
  - reflexivity.
  - reflexivity.
  - reflexivity.
  - constructor.
  - repeat constructor; vm_compute; eexists; reflexivity.
Defined.

Section Reconciler.
Context {T : Transport}.
Implicit Types (w : World T) (self : AnsibleModule).

Lemma find_by_name_none name items :
  Forall (fun policy => exists n, subscript policy "name" = Ok n /\
                                  py_eq n (JStr name) = false) items ->
  find_by_name name items = Ok JNull.
Proof.
  induction 1 as [|policy items (n & Hn & Hne) _ IH]; simpl; [done |].
  by rewrite Hn; simpl; rewrite Hne.
Qed.

Lemma find_policy_unfold self name results items w w1 :
  _get_all self policies_endpoint w = (Ok results, w1) ->
  py_iter results = Ok items ->
  _find_policy self name w = (find_by_name name items, w1).
Proof.
  intros Hget Hiter. unfold _find_policy.
  change "/api/v2/compliance/policies" with policies_endpoint.
  rewrite bind_unfold, Hget. unfold lift. by rewrite Hiter.
Qed.

(** C7. With [state=absent], when the listing of policies holds no policy
    of the given name, [run] exits with [changed=False] and an empty
    [compliance_policies] list, having issued no mutating request, in
    check mode and in apply mode alike. *)
Theorem run_absent_not_found (p : Params) (check : bool) results items w w1 :
  let self := {| params := p; check_mode := check |} in
  state p = absent ->
  _get_all self policies_endpoint w = (Ok results, w1) ->
  py_iter results = Ok items ->
  Forall (fun policy => exists n, subscript policy "name" = Ok n /\
                                  py_eq n (JStr (name p)) = false) items ->
  run self w = (Stop (ExitJson false (entity [])), w1) /\
  only_reads w w1.
Proof.
  intros self Hstate Hget Hiter Hnone. split.
  - unfold run. rewrite bind_unfold.
    rewrite (find_policy_unfold _ _ _ _ _ _ Hget Hiter).
    subst self. simpl params.
    rewrite (find_by_name_none _ _ Hnone). by rewrite Hstate.
  - pose proof (read_only_get_all self policies_endpoint w) as Hro.
    by rewrite Hget in Hro.
Qed.

(** C10, as amended. Unless the status is the connection-failed sentinel
    [-1], [_api_request] returns the status with a decoded value and never
    fails on decoding: an absent, empty or undecodable body gives the empty
    dictionary, and a decodable body gives the value it denotes, whatever
    its kind. *)
Theorem api_request_decodes self meth endpoint data w :
  let f := (fetch_url (srv w) (self_credentials self) meth
                      (self_server_url self +:+ endpoint)
                      (json_dumps <$> data)).2 in
  info_status f <> -1 ->
  exists result w',
    _api_request self meth endpoint data w = (Ok (info_status f, result), w') /\
    (forall b v, response_body f = Some b -> text_truthy b = true ->
                 json_loads b = Some v -> result = v) /\
    ((response_body f = None \/
      exists b, response_body f = Some b /\
                (text_truthy b = false \/ json_loads b = None)) ->
     result = JObj []).
Proof.
  intros f Hstatus. unfold _api_request. subst f.
  destruct (fetch_url _ _ _ _ _) as [s' f]. simpl in *.
  apply Z.eqb_neq in Hstatus. rewrite Hstatus.
  eexists _, _. split; [done |]. split.
  - intros b v Hb Htruthy Hloads. unfold decode. by rewrite Hb, Htruthy, Hloads.
  - intros [Hb | (b & Hb & [Hfalsy | Hloads])]; unfold decode; rewrite Hb.
    + done.
    + by rewrite Hfalsy.
    + rewrite Hloads. by destruct (text_truthy b).
Qed.

End Reconciler.

Lemma run_absent_not_found_witness :
  let p := Sample.with_state absent Sample.desired in
  let self := Sample.module p true in
  let w := Sample.world Sample.server in
  run self w = (Stop (ExitJson false (entity [])),
                (_get_all self policies_endpoint w).2) /\
  only_reads w (_get_all self policies_endpoint w).2.
Proof.
  intros p self w.
  apply (run_absent_not_found (T := Satellite.transport) p true
           (JList [Satellite.render_policy
                     (Satellite.Row 2 [("name", JStr "Other");
                                       ("description", JStr "")])])
           [Satellite.render_policy
              (Satellite.Row 2 [("name", JStr "Other");
                                ("description", JStr "")])] w).
  - reflexivity.
  - vm_compute. reflexivity.
  - reflexivity.
  - repeat constructor. exists (JStr "Other"). split; reflexivity.
Defined.

(** A response with status 200 whose body is the JSON array [[]]. *)
Lemma api_request_decodes_witness :
  let self := Sample.module Sample.desired false in
  let w := @Build_World Canned.transport
             (Fetched (Some (Satellite.WJson (JList []))) 200 (Some "OK") None)
             [] in
  exists result w',
    _api_request self GET "/api/v2/organizations" None w =
    (Ok (200, result), w') /\
    (forall b v, Some (Satellite.WJson (JList [])) = Some b ->
                 @text_truthy Canned.transport b = true ->
                 @json_loads Canned.transport b = Some v -> result = v) /\
    ((Some (Satellite.WJson (JList [])) = None \/
      exists b, Some (Satellite.WJson (JList [])) = Some b /\
                (@text_truthy Canned.transport b = false \/
                 @json_loads Canned.transport b = None)) ->
     result = JObj []).
Proof.
  intros self w.
  apply (api_request_decodes (T := Canned.transport) self GET
           "/api/v2/organizations" None w).
  simpl. lia.
Defined.

(** C10 as stated fails: a body that decodes to a JSON array reaches the
    caller as a list, not as a dictionary. *)
Lemma api_request_not_always_dict :
  let self := Sample.module Sample.desired false in
  let w := @Build_World Canned.transport
             (Fetched (Some (Satellite.WJson (JList []))) 200 (Some "OK") None)
             [] in
  exists status result w',
    _api_request self GET "/api/v2/organizations" None w =
    (Ok (status, result), w') /\
    status <> -1 /\ ~ is_dict result.
Proof.
  intros self w. eexists _, _, _. split; [vm_compute; reflexivity |].
  split; [lia | intros []].
Defined.

(** ** Decision and action *)

Section CheckMode.
Context {T : Transport}.
Implicit Types (w : World T) (self : AnsibleModule).

Ltac mrun :=
  cbv beta iota zeta
      delta [mbind M_bind mret M_ret lift when exit_json fail_json].

(** [run] decides, then simulates or performs. *)
Lemma run_plan self w :
  run self w =
  (plan_of self ≫= fun pl =>
     if check_mode self then simulate pl else perform self pl) w.
Proof.
  unfold run, plan_of. mrun.
  destruct (_find_policy self _ w) as [[existing|s] w1]; [| done].
  destruct (state (params self)) eqn:Hst;
    [change (bool_decide (present = absent)) with false
    |change (bool_decide (absent = absent)) with true]; mrun.
  - destruct (_build_policy_payload self w1) as [[payload|s] w2]; [| done].
    destruct (is_None existing) eqn:Hnone; mrun.
    + destruct (check_mode self); unfold simulate, perform; mrun.
      * by destruct (subscript payload "policy").
      * destruct (_api_request _ _ _ _ _) as [[[status result]|s] w3]; [| done].
        by destruct (negb _); [destruct (error_detail result) |].
    + destruct (_needs_update existing payload) as [differs|]; [| done].
      destruct differs; cbn [negb]; mrun.
      * destruct (check_mode self); unfold simulate, perform; mrun;
          [by destruct (subscript payload "policy") |].
        destruct (subscript existing "id"); [| done].
        destruct (_api_request _ _ _ _ _) as [[[status result]|s] w3]; [| done].
        by destruct (negb _); [destruct (error_detail result) |].
      * by destruct (check_mode self).
  - destruct (is_None existing) eqn:Hnone; mrun.
    + by destruct (check_mode self).
    + destruct (check_mode self); unfold simulate, perform; mrun; [done |].
      destruct (subscript existing "id"); [| done].
      destruct (_api_request _ _ _ _ _) as [[[status result]|s] w3]; [| done].
      by destruct (negb _).
Qed.

Lemma bind_ok_inv {A B} (m : M T A) (f : A -> M T B) w b w' :
  (m ≫= f) w = (Ok b, w') ->
  exists a w1, m w = (Ok a, w1) /\ f a w1 = (Ok b, w').
Proof.
  rewrite bind_unfold. destruct (m w) as [[a|s] w1]; [eauto | done].
Qed.

(** What [_build_policy_payload] returns, when it returns. *)
Lemma build_policy_payload_inv self w payload w' :
  _build_policy_payload self w = (Ok payload, w') ->
  exists sc sp orgs locs hgs,
    payload =
    JObj [("policy",
           JObj (with_schedule (params self)
                   (policy_dict (params self) sc sp orgs locs hgs)))].
Proof.
  unfold _build_policy_payload. intros H.
  apply bind_ok_inv in H as (sc & ? & _ & H).
  apply bind_ok_inv in H as (sp & ? & _ & H).
  apply bind_ok_inv in H as (orgs & ? & _ & H).
  apply bind_ok_inv in H as (locs & ? & _ & H).
  apply bind_ok_inv in H as (hgs & ? & _ & H).
  injection H as <- _. by exists sc, sp, orgs, locs, hgs.
Qed.

Lemma plan_of_payload self w pl w' :
  plan_of self w = (Ok pl, w') ->
  match pl with
  | Create payload | Update _ payload =>
      exists policy, subscript payload "policy" = Ok policy
  | _ => True
  end.
Proof.
  unfold plan_of. intros H.
  apply bind_ok_inv in H as (existing & w1 & _ & H).
  destruct (state _).
  - apply bind_ok_inv in H as (payload & w2 & Hb & H).
    apply build_policy_payload_inv in Hb as (sc & sp & orgs & locs & hgs & ->).
    destruct (is_None existing).
    + injection H as <- _. by eexists.
    + apply bind_ok_inv in H as (differs & w3 & _ & H).
      injection H as <- _. destruct differs; [by eexists | done].
  - injection H as <- _. by destruct (is_None existing).
Qed.

Lemma subscript_aborts o k s : subscript o k = Stop s -> aborts s.
Proof.
  destruct o; simpl; try by intros [= <-].
  destruct (assoc k kv); [done | by intros [= <-]].
Qed.

Lemma py_get_aborts o k d s : py_get o k d = Stop s -> aborts s.
Proof. destruct o; simpl; try done; by intros [= <-]. Qed.

Lemma error_detail_aborts result s : error_detail result = Stop s -> aborts s.
Proof.
  unfold error_detail.
  destruct (py_get result "error" (JObj [])) as [e|s'] eqn:He; simpl.
  - apply py_get_aborts.
  - intros [= <-]. by apply py_get_aborts in He.
Qed.

Lemma api_request_aborts self meth endpoint data w s w' :
  _api_request self meth endpoint data w = (Stop s, w') -> aborts s.
Proof.
  unfold _api_request. destruct (fetch_url _ _ _ _ _) as [s' f].
  case_match; [by intros [= <- _] | done].
Qed.

(** Apply mode reports [changed] from the plan alone. *)
Lemma perform_exit self pl w c e :
  (perform self pl w).1 = Stop (ExitJson c e) ->
  c = match pl with Nothing | Keep _ => false | _ => true end.
Proof.
  destruct pl; unfold perform; mrun; simpl.
  - by intros [= <- _].
  - destruct (subscript existing "id") eqn:Hid;
      [| intros [= ->]; by apply subscript_aborts in Hid].
    destruct (_api_request _ _ _ _ _) as [[[status result]|s] w3] eqn:Hrq;
      [| intros [= ->]; by apply api_request_aborts in Hrq].
    destruct (negb _); [done | by intros [= <- _]].
  - destruct (_api_request _ _ _ _ _) as [[[status result]|s] w3] eqn:Hrq;
      [| intros [= ->]; by apply api_request_aborts in Hrq].
    destruct (negb _); [| by intros [= <- _]].
    destruct (error_detail result) eqn:Hd; [done |].
    intros [= ->]. by apply error_detail_aborts in Hd.
  - by intros [= <- _].
  - destruct (subscript existing "id") eqn:Hid;
      [| intros [= ->]; by apply subscript_aborts in Hid].
    destruct (_api_request _ _ _ _ _) as [[[status result]|s] w3] eqn:Hrq;
      [| intros [= ->]; by apply api_request_aborts in Hrq].
    destruct (negb _); [| by intros [= <- _]].
    destruct (error_detail result) eqn:Hd; [done |].
    intros [= ->]. by apply error_detail_aborts in Hd.
Qed.

(** C1, as amended. In check mode [run] issues no [POST], [PUT] or
    [DELETE] on any branch.  Whenever the run in apply mode from the same
    world reports a [changed] flag, the check-mode run reports the same
    flag; and when the check-mode run stops without a flag, the apply-mode
    run stops in the same way in the same world. *)
Theorem check_mode_agrees (p : Params) w :
  let dry := run {| params := p; check_mode := true |} w in
  let real := run {| params := p; check_mode := false |} w in
  only_reads w dry.2 /\
  (forall c e, real.1 = Stop (ExitJson c e) ->
               exists e', dry.1 = Stop (ExitJson c e')) /\
  (forall s, dry.1 = Stop s -> changed_flag dry.1 = None -> real = dry).
Proof.
  intros dry real. subst dry real. rewrite !run_plan. simpl check_mode.
  change (plan_of {| params := p; check_mode := false |})
    with (plan_of {| params := p; check_mode := true |}).
  set (self := {| params := p; check_mode := true |}).
  rewrite !bind_unfold.
  pose proof (read_only_plan_of self w) as Hro.
  destruct (plan_of self w) as [[pl|s] w1] eqn:Hplan; simpl in Hro.
  - apply plan_of_payload in Hplan. rewrite simulate_stays.
    split; [done |]. split.
    + intros c e Hreal. apply perform_exit in Hreal as ->.
      destruct pl; try (by eexists); destruct Hplan as [policy Hpol];
        unfold simulate; rewrite bind_lift, Hpol; by eexists.
    + intros s Hs Hflag. exfalso.
      destruct pl; try done; destruct Hplan as [policy Hpol];
        unfold simulate in Hflag; by rewrite bind_lift, Hpol in Hflag.
  - split; [done |]. split; [| done].
    intros c e Hreal. by eexists.
Qed.

Lemma void_ok {A} (m : M T A) w w' :
  void m w = (Ok (), w') -> exists a, m w = (Ok a, w').
Proof.
  unfold void. mrun. destruct (m w) as [[a|s] w1]; [| done].
  intros [= <-]. by exists a.
Qed.

Lemma void_stop {A} (m : M T A) w s w' :
  void m w = (Stop s, w') -> m w = (Stop s, w').
Proof.
  unfold void. mrun.
  destruct (m w) as [[a|s'] w1]; [by intros [=] | by intros [= -> ->]].
Qed.

Lemma sequence_cons (step : M T ()) rest w w' :
  sequence (step :: rest) w = (Ok (), w') ->
  exists w1, step w = (Ok (), w1) /\ sequence rest w1 = (Ok (), w').
Proof.
  simpl. mrun. destruct (step w) as [[[]|s] w1]; [| done]. eauto.
Qed.

(** A resolution that stops, stops the whole [_build_policy_payload]. *)
Lemma build_policy_payload_stops self k step w wk s w' :
  resolution_steps self !! k = Some step ->
  sequence (take k (resolution_steps self)) w = (Ok (), wk) ->
  step wk = (Stop s, w') ->
  _build_policy_payload self w = (Stop s, w').
Proof.
  intros Hk Hseq Hstep. unfold _build_policy_payload.
  unfold resolution_steps in Hk, Hseq.
  destruct k as [|[|[|[|[|k]]]]]; simpl in Hk; [..| done];
    injection Hk as <-; simpl take in Hseq;
    repeat (apply sequence_cons in Hseq as (? & [? Hok]%void_ok & Hseq);
            rewrite bind_unfold, Hok; clear Hok);
    injection Hseq as <-; apply void_stop in Hstep;
    by rewrite bind_unfold, Hstep.
Qed.

(** C5. With [state=present], when one of the five reference resolutions
    (SCAP content, its profile, organizations, locations, hostgroups), taken
    in the order in which [_build_policy_payload] performs them, stops
    instead of returning, [run] stops in the same way and has issued no
    [POST], [PUT] or [DELETE]: only [GET] requests precede the failure. *)
Theorem resolution_failure_aborts (p : Params) (check : bool)
    w existing w1 k step wk s w' :
  let self := {| params := p; check_mode := check |} in
  state p = present ->
  _find_policy self (name p) w = (Ok existing, w1) ->
  resolution_steps self !! k = Some step ->
  sequence (take k (resolution_steps self)) w1 = (Ok (), wk) ->
  step wk = (Stop s, w') ->
  run self w = (Stop s, w') /\ only_reads w w'.
Proof.
  intros self Hstate Hfind Hk Hseq Hstep. subst self.
  set (self := {| params := p; check_mode := check |}) in *.
  pose proof (build_policy_payload_stops _ _ _ _ _ _ _ Hk Hseq Hstep) as Hb.
  assert (plan_of self w = (Stop s, w')) as Hplan.
  { unfold plan_of. rewrite bind_unfold. change (params self) with p.
    rewrite Hfind, Hstate. by rewrite bind_unfold, Hb. }
  split.
  - by rewrite run_plan, bind_unfold, Hplan.
  - pose proof (read_only_plan_of self w) as Hro. by rewrite Hplan in Hro.
Qed.

End CheckMode.

(** C1 as stated fails: on a server that refuses the [POST], check mode
    reports [changed=True] while apply mode fails and reports no flag. *)
Lemma check_mode_flag_differs :
  changed_flag (run (Sample.module Sample.desired true)
                    (Sample.world Sample.locked)).1 = Some true /\
  (run (Sample.module Sample.desired false) (Sample.world Sample.locked)).1 =
  Stop (FailJson "Failed to create policy 'P1': HTTP 403 - Forbidden").
Proof. split; vm_compute; reflexivity. Qed.

Lemma resolution_failure_aborts_witness :
  let p := Sample.with_organizations ["Org2"; "Nope"] Sample.desired in
  let self := Sample.module p false in
  let w := Sample.world Sample.server in
  let step := void (_resolve_ids self "/api/v2/organizations"
                                 (organizations p) "name") in
  let w1 := (_find_policy self (name p) w).2 in
  let wk := (sequence (take 2 (resolution_steps self)) w1).2 in
  run self w =
  (Stop (FailJson "Could not find name 'Nope' at /api/v2/organizations"),
   (step wk).2) /\
  only_reads w (step wk).2.
Proof.
  intros p self w step w1 wk.
  apply (resolution_failure_aborts (T := Satellite.transport) p false w
           JNull w1 2 step wk).
  - reflexivity.
  - vm_compute. reflexivity.
  - reflexivity.
  - vm_compute. reflexivity.
  - vm_compute. reflexivity.
Defined.

(** ** Payload Builder *)

Section Payload.
Context {T : Transport}.
Implicit Types (w : World T) (self : AnsibleModule).

Lemma required_if_schedule (p : Params) :
  state p = present -> required_if p = true ->
  exists per v, period p = Some per /\ schedule_param p per = Some v.
Proof.
  unfold required_if. intros -> Hreq.
  apply andb_prop in Hreq as [Hpresent Hperiod].
  destruct (period p) as [per|].
  - exists per.
    destruct per; apply bool_decide_eq_true_1 in Hperiod as [v Hv];
      simpl; rewrite Hv; by eexists.
  - repeat (apply andb_prop in Hpresent as [Hpresent ?]).
    match goal with
    | H : bool_decide (is_Some None) = true |- _ =>
        apply bool_decide_eq_true_1 in H; by destruct H
    end.
Qed.

Lemma weekday_truthy d : py_truthy (JStr (weekday_str d)) = true.
Proof. by destruct d. Qed.

(** C3, as amended. For parameters with [state=present] that satisfy
    [required_if], the payload that [_build_policy_payload] returns holds
    neither of the two schedule keys that [period] does not select, and
    holds the selected one, with the value given for it, exactly when
    that value is truthy: always for [weekday], for a [day_of_month]
    other than [0], for a [cron_line] other than the empty string. *)
Theorem payload_schedule_key self w payload w' :
  state (params self) = present ->
  required_if (params self) = true ->
  _build_policy_payload self w = (Ok payload, w') ->
  exists per v policy,
    period (params self) = Some per /\
    schedule_param (params self) per = Some v /\
    payload = JObj [("policy", JObj policy)] /\
    (forall k, k ∈ schedule_keys -> k <> selected_key per ->
               assoc k policy = None) /\
    assoc (selected_key per) policy = (if py_truthy v then Some v else None).
Proof.
  intros Hstate Hreq Hbuild.
  destruct (required_if_schedule _ Hstate Hreq) as (per & v & Hper & Hv).
  apply build_policy_payload_inv in Hbuild
    as (sc & sp & orgs & locs & hgs & ->).
  exists per, v. eexists. split; [done |]. split; [done |].
  split; [done |]. unfold with_schedule. rewrite Hper.
  destruct per; simpl in Hv.
  - destruct (weekday _) as [d|]; simplify_eq/=. split.
    + intros k Hk Hne. unfold schedule_keys in Hk.
      repeat (apply elem_of_cons in Hk as [-> | Hk]); try done.
      by apply elem_of_nil in Hk.
    + by destruct d.
  - destruct (day_of_month _) as [d|]; simplify_eq/=. split.
    + intros k Hk Hne. unfold schedule_keys in Hk.
      repeat (apply elem_of_cons in Hk as [-> | Hk]); try done;
        [by destruct (d =? 0).. | by apply elem_of_nil in Hk].
    + by destruct (d =? 0).
  - destruct (cron_line _) as [c|]; simplify_eq/=. split.
    + intros k Hk Hne. unfold schedule_keys in Hk.
      repeat (apply elem_of_cons in Hk as [-> | Hk]); try done;
        [by destruct (String.eqb c "").. | by apply elem_of_nil in Hk].
    + by destruct (String.eqb c "").
Qed.

End Payload.

Lemma payload_schedule_key_witness :
  let self := Sample.module Sample.desired false in
  let w := Sample.world Sample.server in
  exists per v policy,
    period (params self) = Some per /\
    schedule_param (params self) per = Some v /\
    (_build_policy_payload self w).1 = Ok (JObj [("policy", JObj policy)]) /\
    (forall k, k ∈ schedule_keys -> k <> selected_key per ->
               assoc k policy = None) /\
    assoc (selected_key per) policy = (if py_truthy v then Some v else None).
Proof.
  intros self w.
  destruct (payload_schedule_key (T := Satellite.transport) self w
              (match (_build_policy_payload self w).1 with
               | Ok payload => payload
               | Stop _ => JNull
               end)
              (_build_policy_payload self w).2)
    as (per & v & policy & Hper & Hv & Hpayload & Hothers & Hsel).
  - reflexivity.
  - reflexivity.
  - vm_compute. reflexivity.
  - exists per, v, policy. repeat split; try assumption.
    rewrite <- Hpayload. vm_compute. reflexivity.
Defined.

(** C3 as stated fails: [day_of_month=0] passes [required_if], and the
    payload then holds none of the three schedule keys. *)
Lemma payload_without_schedule_key :
  let p := Sample.monthly_on 0 Sample.desired in
  state p = present /\ required_if p = true /\
  exists policy,
    (_build_policy_payload (Sample.module p false)
                           (Sample.world Sample.server)).1 =
    Ok (JObj [("policy", JObj policy)]) /\
    Forall (fun k => assoc k policy = None) schedule_keys.
Proof.
  intros p. split; [done |]. split; [done |]. eexists. split.
  - vm_compute. reflexivity.
  - repeat constructor.
Qed.

(** ** Diff Engine *)


Lemma insert_by_Permutation {A} (leb : A -> A -> bool) x l :
  insert_by leb x l ≡ₚ x :: l.
Proof.
  induction l as [|y l IH]; simpl; [done |].
  destruct (leb x y); [done |]. by rewrite IH, Permutation_swap.
Qed.

Lemma sort_by_Permutation {A} (leb : A -> A -> bool) l : sort_by leb l ≡ₚ l.
Proof.
  induction l as [|x l IH]; simpl; [done |].
  by rewrite insert_by_Permutation, IH.
Qed.

Lemma insert_by_sorted x l :
  StronglySorted Z.le l -> StronglySorted Z.le (insert_by Z.leb x l).
Proof.
  induction 1 as [|y l Hl IH Hy]; simpl; [by repeat constructor |].
  destruct (Z.leb_spec x y).
  - constructor; [by constructor |]. constructor; [done |].
    eapply Forall_impl; [done |]. intros; lia.
  - constructor; [done |]. rewrite insert_by_Permutation.
    constructor; [lia | done].
Qed.

Lemma sort_by_sorted l : StronglySorted Z.le (sort_by Z.leb l).
Proof.
  induction l as [|x l IH]; simpl; [constructor | by apply insert_by_sorted].
Qed.

Lemma sort_by_eq_iff (a b : list Z) :
  sort_by Z.leb a = sort_by Z.leb b <-> a ≡ₚ b.
Proof.
  split.
  - intros Heq. by rewrite <- (sort_by_Permutation Z.leb a), Heq, sort_by_Permutation.
  - intros Hperm. apply (StronglySorted_unique Z.le); [apply sort_by_sorted.. |].
    by rewrite !sort_by_Permutation.
Qed.

Lemma insert_by_ints x l :
  insert_by (key_leb num_key Z.leb) (JInt x) (JInt <$> l) =
  JInt <$> insert_by Z.leb x l.
Proof.
  induction l as [|y l IH]; [done |].
  rewrite fmap_cons. cbn [insert_by]. unfold key_leb at 1. cbn [num_key].
  destruct (x <=? y); [done | by rewrite fmap_cons, IH].
Qed.

Lemma py_sorted_ints l :
  py_sorted (JInt <$> l) = Ok (JInt <$> sort_by Z.leb l).
Proof.
  unfold py_sorted.
  assert (forallb (fun v => bool_decide (is_Some (num_key v))) (JInt <$> l) = true) as ->.
  { induction l as [|x l IH]; [done |]. rewrite fmap_cons. cbn [forallb].
    by rewrite IH. }
  f_equal. induction l as [|x l IH]; [done |].
  rewrite fmap_cons. unfold sort_by in *. cbn [foldr].
  by rewrite IH, insert_by_ints.
Qed.

Lemma py_eq_int_lists a b :
  py_eq (JList (JInt <$> a)) (JList (JInt <$> b)) = true <-> a = b.
Proof.
  simpl. revert b. induction a as [|x a IH]; intros [|y b]; simpl; try done.
  rewrite andb_true_iff, Z.eqb_eq, IH.
  split; [by intros [-> ->] | by intros [= -> ->]].
Qed.


Lemma ex_some_eq {A} (a : A) (P : A -> Prop) :
  (exists k, Some a = Some k /\ P k) <-> P a.
Proof. split; [by intros (k & [= <-] & Hk) | by exists a]. Qed.

Lemma ex_none_eq {A} (P : A -> Prop) :
  (exists k, None = Some k /\ P k) <-> False.
Proof. split; [by intros (k & [=] & _) | done]. Qed.

Lemma field_ne_dict ekv dkv k d :
  field_ne (JObj ekv) (JObj dkv) k d =
  Ok (py_ne (field (JObj ekv) k d) (field (JObj dkv) k d)).
Proof. reflexivity. Qed.

Lemma comprehend_ids objs ids :
  Forall2 (fun o i => subscript o "id" = Ok (JInt i)) objs ids ->
  comprehend "id" (JList objs) = Ok (JInt <$> ids).
Proof.
  unfold comprehend. simpl.
  induction 1 as [|o i objs ids Ho _ IH]; [done |].
  rewrite fmap_cons. cbn [mapM]. rewrite Ho. simpl. by rewrite IH.
Qed.

Lemma existing_ids_sorted existing k ids :
  remote_ids existing k ids ->
  existing_ids existing k = Ok (JInt <$> sort_by Z.leb ids).
Proof.
  intros (objs & Hget & Hids). unfold existing_ids. rewrite Hget. simpl.
  rewrite (comprehend_ids _ _ Hids). simpl. apply py_sorted_ints.
Qed.

Lemma ids_ne_sorted desired k e d :
  desired_ids desired k d ->
  ids_ne (JInt <$> sort_by Z.leb e) desired k = Ok (bool_decide (¬ e ≡ₚ d)).
Proof.
  intros Hget. unfold ids_ne. rewrite Hget. simpl.
  unfold py_sorted_of. simpl. rewrite py_sorted_ints. simpl. f_equal.
  unfold py_ne. 
  destruct (py_eq _ _) eqn:Heq; simpl; symmetry.
  - apply py_eq_int_lists, sort_by_eq_iff in Heq.
    apply bool_decide_eq_false. by intros [].
  - apply bool_decide_eq_true. intros Hperm%sort_by_eq_iff%py_eq_int_lists.
    congruence.
Qed.

(** C6, as amended. On a remote policy and a desired payload whose
    associations carry integer ids, [_needs_update] returns, and returns
    [True] exactly when one of [description], [scap_content_id],
    [scap_content_profile_id], [period], [deploy_by] differs, or the
    schedule field that the desired period selects differs, or the ids of
    one of the three associations are not the same up to order: the ids
    are compared as sorted sequences, so their multiplicities count. *)
Theorem needs_update_iff existing desired eo el eh od ld hd :
  remote_ids existing "organizations" eo ->
  remote_ids existing "locations" el ->
  remote_ids existing "hostgroups" eh ->
  desired_ids desired "organization_ids" od ->
  desired_ids desired "location_ids" ld ->
  desired_ids desired "hostgroup_ids" hd ->
  exists b,
    _needs_update existing (JObj [("policy", desired)]) = Ok b /\
    (b = true <-> differs Permutation existing desired eo el eh od ld hd).
Proof.
  intros Heo Hel Heh Hod Hld Hhd.
  assert (exists ekv, existing = JObj ekv) as [ekv ->].
  { destruct Heo as (? & Hget & _). destruct existing; try done. by eexists. }
  assert (exists dkv, desired = JObj dkv) as [dkv ->].
  { destruct desired; try done. by eexists. }
  unfold _needs_update.
  change (subscript (JObj [("policy", JObj dkv)]) "policy") with (Ok (JObj dkv)).
  cbn [mbind res_bind]. rewrite !field_ne_dict. cbn [mbind res_bind].
  change (py_get (JObj dkv) "period" JNull)
    with (Ok (field (JObj dkv) "period" JNull)).
  cbn [mbind res_bind].
  unfold differs, active_schedule, compared_fields, field_differs.
  set (per := field (JObj dkv) "period" JNull).
  destruct (py_eq per (JStr "weekly")); [| destruct (py_eq per (JStr "monthly"));
    [| destruct (py_eq per (JStr "custom"))]];
    cbn [mbind res_bind];
    rewrite (existing_ids_sorted _ _ _ Heo), (existing_ids_sorted _ _ _ Hel),
      (existing_ids_sorted _ _ _ Heh); cbn [mbind res_bind];
    rewrite (ids_ne_sorted _ _ eo _ Hod), (ids_ne_sorted _ _ el _ Hld),
      (ids_ne_sorted _ _ eh _ Hhd); cbn [mbind res_bind];
    eexists; (split; [reflexivity |]);
    unfold py_ne; cbn [existsb app id];
    rewrite !Exists_cons, Exists_nil, !orb_true_iff, !negb_true_iff,
      !bool_decide_eq_true, ?ex_some_eq, ?ex_none_eq; cbn [fst snd];
    pose proof Bool.diff_false_true; tauto.
Qed.

Lemma needs_update_iff_witness :
  exists b,
    _needs_update Sample.remote_policy
                  (JObj [("policy", Sample.desired_policy)]) = Ok b /\
    (b = true <->
     differs Permutation Sample.remote_policy Sample.desired_policy
             [4] [5] [] [4; 4] [5] []).
Proof.
  apply (needs_update_iff Sample.remote_policy Sample.desired_policy
           [4] [5] [] [4; 4] [5] []).
  - eexists. split; [reflexivity | by repeat constructor].
  - eexists. split; [reflexivity | by repeat constructor].
  - eexists. split; [reflexivity | by repeat constructor].
  - reflexivity.
  - reflexivity.
  - reflexivity.
Defined.

(** C6 as stated fails: the remote policy holds organization 4 once and
    the payload asks for it twice; as sets the ids are the same and every
    other field agrees, yet [_needs_update] returns [True]. *)
Lemma needs_update_counts_duplicates :
  _needs_update Sample.remote_policy
                (JObj [("policy", Sample.desired_policy)]) = Ok true /\
  remote_ids Sample.remote_policy "organizations" [4] /\
  remote_ids Sample.remote_policy "locations" [5] /\
  remote_ids Sample.remote_policy "hostgroups" [] /\
  desired_ids Sample.desired_policy "organization_ids" [4; 4] /\
  desired_ids Sample.desired_policy "location_ids" [5] /\
  desired_ids Sample.desired_policy "hostgroup_ids" [] /\
  ~ differs same_members Sample.remote_policy Sample.desired_policy
            [4] [5] [] [4; 4] [5] [].
Proof.
  split; [by vm_compute |].
  repeat (split; [first [reflexivity
                        | eexists; split; [reflexivity | by repeat constructor]] |]).
  unfold differs, compared_fields, field_differs, same_members.
  rewrite !Exists_cons, Exists_nil.
  intros [Hf | [(k & [= <-] & Hk) | [Ho | [Hl | Hh]]]].
  - vm_compute in Hf. intuition discriminate.
  - by vm_compute in Hk.
  - apply Ho. intros x. rewrite !elem_of_cons, elem_of_nil. tauto.
  - by apply Hl.
  - by apply Hh.
Qed.

(** ** Stops that are failures

    Nothing but [run] itself calls [exit_json]: wherever the helpers stop,
    they stop on a failure. *)

Definition pure_aborts {A} (r : res A) : Prop :=
  forall st, r = Stop st -> aborts st.

Lemma pure_aborts_ok {A} (a : A) : pure_aborts (Ok a).
Proof. by intros st. Qed.

Lemma pure_aborts_raise {A} e : pure_aborts (@raise A e).
Proof. by intros st [= <-]. Qed.

Lemma pure_aborts_bind {A B} (r : res A) (f : A -> res B) :
  pure_aborts r -> (forall a, pure_aborts (f a)) -> pure_aborts (r ≫= f).
Proof.
  intros Hr Hf st. destruct r as [a|st']; simpl; [apply Hf |].
  intros [= <-]. by apply Hr.
Qed.

Lemma pure_aborts_subscript o k : pure_aborts (subscript o k).
Proof. intros st. apply subscript_aborts. Qed.

Lemma pure_aborts_py_get o k d : pure_aborts (py_get o k d).
Proof. intros st. apply py_get_aborts. Qed.

Lemma pure_aborts_py_iter o : pure_aborts (py_iter o).
Proof. destruct o; simpl; first [apply pure_aborts_ok | apply pure_aborts_raise]. Qed.

Lemma pure_aborts_to_key v : pure_aborts (to_key v).
Proof. destruct v; simpl; first [apply pure_aborts_ok | apply pure_aborts_raise]. Qed.

Lemma pure_aborts_mapM {A B} (f : A -> res B) l :
  (forall a, pure_aborts (f a)) -> pure_aborts (mapM f l).
Proof.
  intros Hf. induction l as [|a l IH]; simpl; [apply pure_aborts_ok |].
  apply pure_aborts_bind; [apply Hf | intros b].
  apply pure_aborts_bind; [apply IH | intros bs; apply pure_aborts_ok].
Qed.

Lemma pure_aborts_py_sorted l : pure_aborts (py_sorted l).
Proof.
  unfold py_sorted. repeat case_match;
    first [apply pure_aborts_ok | apply pure_aborts_raise].
Qed.

Lemma pure_aborts_dict_of_items key items d :
  pure_aborts (dict_of_items key items d).
Proof.
  revert d. induction items as [|item items IH]; intros d; simpl;
    [apply pure_aborts_ok |].
  apply pure_aborts_bind; [apply pure_aborts_subscript | intros k].
  apply pure_aborts_bind; [apply pure_aborts_subscript | intros v].
  apply pure_aborts_bind; [apply pure_aborts_to_key | intros h]. apply IH.
Qed.

Lemma pure_aborts_resolve_loop lookup key endpoint names ids :
  pure_aborts (resolve_loop lookup key endpoint names ids).
Proof.
  revert ids. induction names as [|n names IH]; intros ids; simpl;
    [apply pure_aborts_ok |].
  destruct (lookup !! KStr n); [apply IH | by intros st [= <-]].
Qed.

Lemma pure_aborts_find_by_name name items :
  pure_aborts (find_by_name name items).
Proof.
  induction items as [|item items IH]; simpl; [apply pure_aborts_ok |].
  apply pure_aborts_bind; [apply pure_aborts_subscript | intros n].
  destruct (py_eq n _); [apply pure_aborts_ok | apply IH].
Qed.

Lemma pure_aborts_scan_contents title items :
  pure_aborts (scan_contents title items).
Proof.
  induction items as [|item items IH]; simpl; [apply pure_aborts_ok |].
  apply pure_aborts_bind; [apply pure_aborts_subscript | intros t].
  destruct (py_eq t _); [| apply IH].
  apply pure_aborts_bind; [apply pure_aborts_subscript | intros i].
  apply pure_aborts_ok.
Qed.

Lemma pure_aborts_scan_profiles title pid items :
  pure_aborts (scan_profiles title pid items).
Proof.
  induction items as [|item items IH]; simpl; [apply pure_aborts_ok |].
  apply pure_aborts_bind; [apply pure_aborts_py_get | intros sc].
  apply pure_aborts_bind; [apply pure_aborts_py_get | intros t].
  destruct (py_eq t _); [| apply IH].
  apply pure_aborts_bind; [apply pure_aborts_py_get | intros q].
  destruct (py_eq q _); [| apply IH].
  apply pure_aborts_bind; [apply pure_aborts_subscript | intros i].
  apply pure_aborts_ok.
Qed.

Lemma pure_aborts_field_ne existing desired k d :
  pure_aborts (field_ne existing desired k d).
Proof.
  apply pure_aborts_bind; [apply pure_aborts_py_get | intros a].
  apply pure_aborts_bind; [apply pure_aborts_py_get | intros b].
  apply pure_aborts_ok.
Qed.

Lemma pure_aborts_existing_ids existing k : pure_aborts (existing_ids existing k).
Proof.
  apply pure_aborts_bind; [apply pure_aborts_py_get | intros l].
  apply pure_aborts_bind; [| intros ids; apply pure_aborts_py_sorted].
  apply pure_aborts_bind; [apply pure_aborts_py_iter | intros xs].
  apply pure_aborts_mapM. intros x. apply pure_aborts_subscript.
Qed.

Lemma pure_aborts_ids_ne ids desired k : pure_aborts (ids_ne ids desired k).
Proof.
  apply pure_aborts_bind; [apply pure_aborts_py_get | intros d].
  apply pure_aborts_bind; [| intros sd; apply pure_aborts_ok].
  apply pure_aborts_bind; [apply pure_aborts_py_iter | intros xs].
  apply pure_aborts_py_sorted.
Qed.

Lemma pure_aborts_needs_update existing desired_policy :
  pure_aborts (_needs_update existing desired_policy).
Proof.
  unfold _needs_update.
  apply pure_aborts_bind; [apply pure_aborts_subscript | intros desired].
  do 5 (apply pure_aborts_bind; [apply pure_aborts_field_ne | intros ?]).
  apply pure_aborts_bind; [apply pure_aborts_py_get | intros per].
  apply pure_aborts_bind.
  { repeat case_match; try apply pure_aborts_ok;
      (apply pure_aborts_bind; [apply pure_aborts_field_ne | intros ?];
       apply pure_aborts_ok). }
  intros checks.
  do 3 (apply pure_aborts_bind; [apply pure_aborts_existing_ids | intros ?]).
  do 3 (apply pure_aborts_bind; [apply pure_aborts_ids_ne | intros ?]).
  apply pure_aborts_ok.
Qed.

Section NeverExits.
Context {T : Transport}.
Implicit Types (w : World T) (self : AnsibleModule).

Definition never_exits {A} (m : M T A) : Prop :=
  forall w st w', m w = (Stop st, w') -> aborts st.

Lemma never_exits_ret {A} (a : A) : never_exits (mret a).
Proof. by intros w st w'. Qed.

Lemma never_exits_lift {A} (r : res A) : pure_aborts r -> never_exits (lift r).
Proof. intros Hr w st w' [= -> _]. by apply Hr. Qed.

Lemma never_exits_fail_json {A} msg : never_exits (@fail_json T A msg).
Proof. by intros w st w' [= <- _]. Qed.

Lemma never_exits_bind {A B} (m : M T A) (f : A -> M T B) :
  never_exits m -> (forall a, never_exits (f a)) -> never_exits (m ≫= f).
Proof.
  intros Hm Hf w st w'. rewrite bind_unfold.
  destruct (m w) as [[a|st'] w1] eqn:Hmw; [apply Hf |].
  intros [= <- _]. by eapply Hm.
Qed.

Lemma never_exits_get_all self endpoint : never_exits (_get_all self endpoint).
Proof.
  apply never_exits_bind.
  - intros w st w'. apply api_request_aborts.
  - intros [status result].
    case_match; [apply never_exits_fail_json |].
    apply never_exits_lift, pure_aborts_py_get.
Qed.

Lemma never_exits_resolve_ids self endpoint names key :
  never_exits (_resolve_ids self endpoint names key).
Proof.
  apply never_exits_bind; [apply never_exits_get_all | intros results].
  apply never_exits_bind.
  - apply never_exits_lift, pure_aborts_bind;
      [apply pure_aborts_py_iter | intros items; apply pure_aborts_dict_of_items].
  - intros lookup. apply never_exits_lift.
    destruct names; [apply pure_aborts_resolve_loop | apply pure_aborts_raise].
Qed.

Lemma never_exits_find_policy self name : never_exits (_find_policy self name).
Proof.
  apply never_exits_bind; [apply never_exits_get_all | intros results].
  apply never_exits_lift, pure_aborts_bind;
    [apply pure_aborts_py_iter | intros items; apply pure_aborts_find_by_name].
Qed.

Lemma never_exits_resolve_scap_content self title :
  never_exits (_resolve_scap_content self title).
Proof.
  apply never_exits_bind; [apply never_exits_get_all | intros results].
  apply never_exits_bind.
  - apply never_exits_lift, pure_aborts_bind;
      [apply pure_aborts_py_iter | intros items; apply pure_aborts_scan_contents].
  - intros [i|]; [apply never_exits_ret | apply never_exits_fail_json].
Qed.

Lemma never_exits_resolve_scap_profile self title pid :
  never_exits (_resolve_scap_profile self title pid).
Proof.
  apply never_exits_bind; [apply never_exits_get_all | intros results].
  apply never_exits_bind.
  - apply never_exits_lift, pure_aborts_bind;
      [apply pure_aborts_py_iter | intros items; apply pure_aborts_scan_profiles].
  - intros [i|]; [apply never_exits_ret | apply never_exits_fail_json].
Qed.

Lemma never_exits_build_policy_payload self :
  never_exits (_build_policy_payload self).
Proof.
  unfold _build_policy_payload.
  apply never_exits_bind; [apply never_exits_resolve_scap_content | intros ?].
  apply never_exits_bind; [apply never_exits_resolve_scap_profile | intros ?].
  apply never_exits_bind; [apply never_exits_resolve_ids | intros ?].
  apply never_exits_bind; [apply never_exits_resolve_ids | intros ?].
  apply never_exits_bind.
  - destruct (hostgroups _); [apply never_exits_ret | apply never_exits_resolve_ids].
  - intros ?. apply never_exits_ret.
Qed.

Lemma never_exits_plan_of self : never_exits (plan_of self).
Proof.
  unfold plan_of.
  apply never_exits_bind; [apply never_exits_find_policy | intros existing].
  destruct (state _); [| apply never_exits_ret].
  apply never_exits_bind; [apply never_exits_build_policy_payload | intros payload].
  destruct (is_None existing); [apply never_exits_ret |].
  apply never_exits_bind; [| intros ?; apply never_exits_ret].
  apply never_exits_lift, pure_aborts_needs_update.
Qed.

End NeverExits.

(** * Further properties of the module *)

(** ** The server address *)

(** X1. [self.server_url] is the [server_url] parameter without its
    trailing slashes: it does not end with a slash, and the parameter is
    it followed by slashes only. *)
Theorem rstrip_slash_spec s :
  ends_with_slash (rstrip_slash s) = false /\
  exists n, s = rstrip_slash s +:+ slashes n.
Proof.
  induction s as [|c s [IHe [n IHn]]]; simpl.
  - split; [done | by exists 0%nat].
  - destruct (rstrip_slash s) as [|c' r] eqn:Hr.
    + change ("" +:+ slashes n) with (slashes n) in IHn.
      destruct (Ascii.eqb_spec c "/"%char) as [-> | Hc].
      * split; [done |]. exists (S n).
        change (String "/" s = String "/" (slashes n)). by rewrite <- IHn.
      * split; [simpl; by apply Ascii.eqb_neq |].
        exists n. change (String c s = String c (slashes n)). by rewrite <- IHn.
    + split; [done |]. exists n. rewrite string_app_cons. by rewrite <- IHn.
Qed.

Section Listing.
Context {T : Transport}.
Implicit Types (w : World T) (self : AnsibleModule).

(** ** Listing a collection *)

Lemma get_all_sent self endpoint w :
  sent (_get_all self endpoint w).2 = sent w ++ [listing_request self endpoint].
Proof.
  unfold _get_all. rewrite bind_unfold.
  pose proof (api_request_sent self GET (endpoint +:+ "?per_page=1000") None w) as Hs.
  destruct (_api_request _ _ _ _ _) as [[[status result]|st] w1]; simpl in *;
    [| done].
  by case_match.
Qed.

(** X2. When the listing is answered with a status other than 200,
    [_get_all] fails after that one request: with the connection message
    for the sentinel [-1], and otherwise with a message that names the
    endpoint and the status. *)
Theorem get_all_not_200 self endpoint w :
  let url := self_server_url self +:+ endpoint +:+ "?per_page=1000" in
  let f := (fetch_url (srv w) (self_credentials self) GET url None).2 in
  info_status f <> 200 ->
  exists msg w',
    _get_all self endpoint w = (Stop (FailJson msg), w') /\
    sent w' = sent w ++ [listing_request self endpoint] /\
    msg = (if info_status f =? -1
           then "Connection to " +:+ url +:+ " failed: " +:+
                default "unknown error" (info_msg f)
           else "Failed to query " +:+ endpoint +:+ ": HTTP " +:+
                str_of_Z (info_status f)).
Proof.
  intros url f Hstatus.
  pose proof (get_all_sent self endpoint w) as Hsent.
  unfold _get_all in *. rewrite bind_unfold in *. unfold _api_request in *.
  cbn [fmap option_fmap option_map] in *. fold url in Hsent |- *.
  subst f. destruct (fetch_url _ _ _ _ _) as [s' f]. cbn [snd] in *.
  destruct (info_status f =? -1) eqn:Hconn.
  - eexists _, _. split; [reflexivity |]. split; [exact Hsent | done].
  - apply Z.eqb_neq in Hstatus. rewrite Hstatus in *. cbn [negb] in *.
    eexists _, _. split; [reflexivity |]. split; [exact Hsent | done].
Qed.

(** X3. A 200 response whose body is missing, empty or not JSON makes
    [_get_all] return the empty list: the body decodes to the empty
    dictionary, which has no [results]. *)
Theorem get_all_empty_body self endpoint w :
  let url := self_server_url self +:+ endpoint +:+ "?per_page=1000" in
  let f := (fetch_url (srv w) (self_credentials self) GET url None).2 in
  info_status f = 200 ->
  (response_body f = None \/
   exists b, response_body f = Some b /\
             (text_truthy b = false \/ json_loads b = None)) ->
  exists w', _get_all self endpoint w = (Ok (JList []), w').
Proof.
  intros url f Hstatus Hbody.
  unfold _get_all. rewrite bind_unfold. unfold _api_request.
  cbn [fmap option_fmap option_map]. fold url. subst f.
  destruct (fetch_url _ _ _ _ _) as [s' f]. cbn [snd] in *.
  rewrite Hstatus. cbn [Z.eqb negb Pos.eqb].
  assert (decode (response_body f) = JObj []) as ->.
  { unfold decode. destruct Hbody as [-> | (b & -> & [-> | Hl])]; [done.. |].
    rewrite Hl. by destruct (text_truthy b). }
  by eexists.
Qed.

(** X4. [_get_all] performs one exchange with the server, the listing
    request with [per_page=1000], whatever is answered: it asks for no
    further page. *)
Theorem get_all_one_exchange self endpoint w :
  (_get_all self endpoint w).2 =
  {| srv := (fetch_url (srv w) (self_credentials self) GET
                       (rq_url (listing_request self endpoint)) None).1;
     sent := sent w ++ [listing_request self endpoint] |}.
Proof.
  unfold _get_all. rewrite bind_unfold. unfold _api_request, listing_request.
  cbn [fmap option_fmap option_map rq_url].
  rewrite <- string_app_assoc.
  destruct (fetch_url _ _ _ _ _) as [s' f]. cbn [fst].
  destruct (info_status f =? -1); [done |].
  cbn [fst snd]. by destruct (negb _); [| destruct (py_get _ _ _)].
Qed.

(** ** Policy Locator *)

Lemma find_by_name_first name pre policy post :
  Forall (valued_otherwise "name" (JStr name)) pre ->
  valued "name" (JStr name) policy ->
  find_by_name name (pre ++ policy :: post) = Ok policy.
Proof.
  intros Hpre (v & Hv & Heq).
  induction Hpre as [|x pre (v' & Hv' & Hne) _ IH]; simpl.
  - by rewrite Hv; simpl; rewrite Heq.
  - by rewrite Hv'; simpl; rewrite Hne.
Qed.

(** X5. [_find_policy] returns the first listed policy that has the name,
    whatever follows it in the listing, other policies of the same name
    included. *)
Theorem find_policy_first_match self name results pre policy post w w1 :
  _get_all self policies_endpoint w = (Ok results, w1) ->
  py_iter results = Ok (pre ++ policy :: post) ->
  Forall (valued_otherwise "name" (JStr name)) pre ->
  valued "name" (JStr name) policy ->
  _find_policy self name w = (Ok policy, w1).
Proof.
  intros Hget Hiter Hpre Hpol.
  rewrite (find_policy_unfold _ _ _ _ _ _ Hget Hiter).
  by rewrite find_by_name_first.
Qed.

(** X6. A listed policy without a [name], met before any policy of the
    name looked for, makes [_find_policy] raise [KeyError], although a
    policy of that name may follow. *)
Theorem find_policy_nameless self name results pre kv post w w1 :
  _get_all self policies_endpoint w = (Ok results, w1) ->
  py_iter results = Ok (pre ++ JObj kv :: post) ->
  Forall (valued_otherwise "name" (JStr name)) pre ->
  assoc "name" kv = None ->
  _find_policy self name w = (Stop (Raised KeyError), w1).
Proof.
  intros Hget Hiter Hpre Hkv.
  rewrite (find_policy_unfold _ _ _ _ _ _ Hget Hiter). f_equal.
  clear Hiter. induction Hpre as [|x pre (v' & Hv' & Hne) _ IH]; simpl.
  - by rewrite Hkv.
  - by rewrite Hv'; simpl; rewrite Hne.
Qed.

(** ** SCAP content and profile *)

Lemma scan_contents_first title pre content post i :
  Forall (valued_otherwise "title" title) pre ->
  valued "title" title content ->
  subscript content "id" = Ok i ->
  scan_contents title (pre ++ content :: post) = Ok (Some i).
Proof.
  intros Hpre (v & Hv & Heq) Hi.
  induction Hpre as [|x pre (v' & Hv' & Hne) _ IH]; simpl.
  - rewrite Hv; simpl. by rewrite Heq, Hi.
  - by rewrite Hv'; simpl; rewrite Hne.
Qed.

Lemma scan_contents_none title items :
  Forall (valued_otherwise "title" title) items ->
  scan_contents title items = Ok None.
Proof.
  induction 1 as [|x items (v & Hv & Hne) _ IH]; simpl; [done |].
  by rewrite Hv; simpl; rewrite Hne.
Qed.

Lemma resolve_scap_content_unfold self title results items w w1 :
  _get_all self "/api/v2/compliance/scap_contents" w = (Ok results, w1) ->
  py_iter results = Ok items ->
  _resolve_scap_content self title w =
  match scan_contents (jstr_opt title) items with
  | Ok (Some i) => (Ok i, w1)
  | Ok None =>
      (Stop (FailJson ("SCAP content '" +:+ py_str (jstr_opt title) +:+
                       "' not found")), w1)
  | Stop st => (Stop st, w1)
  end.
Proof.
  intros Hget Hiter. unfold _resolve_scap_content.
  rewrite bind_unfold, Hget, bind_lift, Hiter. simpl.
  by destruct (scan_contents _ _) as [[i|]|].
Qed.

(** X7. [_resolve_scap_content] returns the [id] of the first listed
    content that has the title. *)
Theorem resolve_scap_content_first self title results pre content post i w w1 :
  _get_all self "/api/v2/compliance/scap_contents" w = (Ok results, w1) ->
  py_iter results = Ok (pre ++ content :: post) ->
  Forall (valued_otherwise "title" (JStr title)) pre ->
  valued "title" (JStr title) content ->
  subscript content "id" = Ok i ->
  _resolve_scap_content self (Some title) w = (Ok i, w1).
Proof.
  intros Hget Hiter Hpre Hc Hi.
  rewrite (resolve_scap_content_unfold _ _ _ _ _ _ Hget Hiter).
  simpl jstr_opt. by rewrite (scan_contents_first _ _ _ _ _ Hpre Hc Hi).
Qed.

(** X8. When no listed content has the title, [_resolve_scap_content]
    fails with a message that quotes the title. *)
Theorem resolve_scap_content_not_found self title results items w w1 :
  _get_all self "/api/v2/compliance/scap_contents" w = (Ok results, w1) ->
  py_iter results = Ok items ->
  Forall (valued_otherwise "title" (JStr title)) items ->
  _resolve_scap_content self (Some title) w =
  (Stop (FailJson ("SCAP content '" +:+ title +:+ "' not found")), w1).
Proof.
  intros Hget Hiter Hall.
  rewrite (resolve_scap_content_unfold _ _ _ _ _ _ Hget Hiter).
  simpl jstr_opt. by rewrite (scan_contents_none _ _ Hall).
Qed.

Lemma scan_profiles_step title pid profile r :
  profile_shaped profile ->
  scan_profiles title pid (profile :: r) =
  if profile_matches title pid profile
  then i ← subscript profile "id"; Ok (Some i)
  else scan_profiles title pid r.
Proof.
  intros (kv & -> & Hsc). unfold profile_matches, profile_content.
  cbn [scan_profiles py_get field]. cbn [mbind res_bind].
  destruct (assoc "scap_content" kv) as [[| | | | |sc]|]; try done;
    cbn [py_get default field mbind res_bind assoc];
    by destruct (py_eq _ title); [destruct (py_eq _ pid) |].
Qed.

Lemma scan_profiles_first title pid pre profile post i :
  Forall (fun x => profile_shaped x /\ profile_matches title pid x = false) pre ->
  profile_shaped profile ->
  profile_matches title pid profile = true ->
  subscript profile "id" = Ok i ->
  scan_profiles title pid (pre ++ profile :: post) = Ok (Some i).
Proof.
  intros Hpre Hs Hm Hi.
  induction Hpre as [|x pre [Hx Hne] _ IH]; cbn [app].
  - rewrite scan_profiles_step by done. by rewrite Hm, Hi.
  - rewrite scan_profiles_step by done. by rewrite Hne.
Qed.

Lemma scan_profiles_none title pid items :
  Forall (fun x => profile_shaped x /\ profile_matches title pid x = false) items ->
  scan_profiles title pid items = Ok None.
Proof.
  induction 1 as [|x items [Hx Hne] _ IH]; [done |].
  rewrite scan_profiles_step by done. by rewrite Hne.
Qed.

Lemma resolve_scap_profile_unfold self title pid results items w w1 :
  _get_all self "/api/v2/compliance/scap_content_profiles" w = (Ok results, w1) ->
  py_iter results = Ok items ->
  _resolve_scap_profile self title pid w =
  match scan_profiles (jstr_opt title) (jstr_opt pid) items with
  | Ok (Some i) => (Ok i, w1)
  | Ok None =>
      (Stop (FailJson ("SCAP profile '" +:+ py_str (jstr_opt pid) +:+
                       "' not found in content '" +:+
                       py_str (jstr_opt title) +:+ "'")), w1)
  | Stop st => (Stop st, w1)
  end.
Proof.
  intros Hget Hiter. unfold _resolve_scap_profile.
  rewrite bind_unfold, Hget, bind_lift, Hiter. simpl.
  by destruct (scan_profiles _ _ _) as [[i|]|].
Qed.

(** X9. [_resolve_scap_profile] returns the [id] of the first listed
    profile that has the profile id and belongs to the content of the
    given title; a profile with the same profile id in another content,
    or without a content, is passed over. *)
Theorem resolve_scap_profile_scoped self title pid results pre profile post i w w1 :
  _get_all self "/api/v2/compliance/scap_content_profiles" w = (Ok results, w1) ->
  py_iter results = Ok (pre ++ profile :: post) ->
  Forall (fun x => profile_shaped x /\
                   profile_matches (JStr title) (JStr pid) x = false) pre ->
  profile_shaped profile ->
  profile_matches (JStr title) (JStr pid) profile = true ->
  subscript profile "id" = Ok i ->
  _resolve_scap_profile self (Some title) (Some pid) w = (Ok i, w1).
Proof.
  intros Hget Hiter Hpre Hs Hm Hi.
  rewrite (resolve_scap_profile_unfold _ _ _ _ _ _ _ Hget Hiter).
  simpl jstr_opt. by rewrite (scan_profiles_first _ _ _ _ _ _ Hpre Hs Hm Hi).
Qed.

(** X10. When no listed profile has both the profile id and the content
    title, [_resolve_scap_profile] fails with a message that quotes the
    profile id and the content title. *)
Theorem resolve_scap_profile_not_found self title pid results items w w1 :
  _get_all self "/api/v2/compliance/scap_content_profiles" w = (Ok results, w1) ->
  py_iter results = Ok items ->
  Forall (fun x => profile_shaped x /\
                   profile_matches (JStr title) (JStr pid) x = false) items ->
  _resolve_scap_profile self (Some title) (Some pid) w =
  (Stop (FailJson ("SCAP profile '" +:+ pid +:+ "' not found in content '" +:+
                   title +:+ "'")), w1).
Proof.
  intros Hget Hiter Hall.
  rewrite (resolve_scap_profile_unfold _ _ _ _ _ _ _ Hget Hiter).
  simpl jstr_opt. by rewrite (scan_profiles_none _ _ _ Hall).
Qed.

(** ** Reference Resolver, further *)

Lemma dict_of_items_indexable key items d :
  Forall (indexable key) items ->
  exists lookup,
    dict_of_items key items d = Ok lookup /\
    (forall n, (is_Some (d !! KStr n) \/ Exists (valued key (JStr n)) items) ->
               is_Some (lookup !! KStr n)) /\
    (forall n i, lookup !! KStr n = Some i ->
                 d !! KStr n = Some i \/
                 exists item, item ∈ items /\ valued key (JStr n) item /\
                              subscript item "id" = Ok i).
Proof.
  intros Hall. revert d.
  induction Hall as [|item items (k & i & h & Hk & Hi & Hh) _ IH]; intros d.
  - exists d. split; [done |]. split.
    + intros n [Hn | Hn]; [done | by apply Exists_nil in Hn].
    + intros n i Hn. by left.
  - destruct (IH (<[h := i]> d)) as (lookup & Hd & Hfound & Hfrom).
    exists lookup. split; [| split].
    + simpl. rewrite Hk, Hi. simpl. by rewrite Hh.
    + intros n Hn. apply Hfound.
      destruct (decide (h = KStr n)) as [-> | Hne].
      * left. rewrite lookup_insert_eq. by eexists.
      * destruct Hn as [Hn | Hn]; [left; by rewrite lookup_insert_ne |].
        apply Exists_cons in Hn as [(v & Hv & Heq) | Hn]; [| by right].
        rewrite Hk in Hv. injection Hv as <-.
        by apply (to_key_str _ _ n Hh) in Heq.
    + intros n j Hn. destruct (Hfrom n j Hn) as [Hd' | (x & Hx & Hv & Hj)].
      * destruct (decide (h = KStr n)) as [-> | Hne].
        -- rewrite lookup_insert_eq in Hd'. injection Hd' as <-. right.
           exists item. split; [by left |]. split; [| done].
           exists k. split; [done |]. by apply (to_key_str _ _ n Hh).
        -- rewrite lookup_insert_ne in Hd' by done. by left.
      * right. exists x. split; [by right | done].
Qed.

(** X11. When every listed item can be indexed and every requested name
    is the key of a listed item, [_resolve_ids] returns one id per name,
    in the order of the names, each the [id] of a listed item of that
    name. *)
Theorem resolve_ids_complete self endpoint key names results items w w1 :
  _get_all self endpoint w = (Ok results, w1) ->
  py_iter results = Ok items ->
  Forall (indexable key) items ->
  Forall (fun n => Exists (valued key (JStr n)) items) names ->
  exists ids,
    _resolve_ids self endpoint (Some names) key w = (Ok ids, w1) /\
    Forall2 (fun n i => exists item, item ∈ items /\ valued key (JStr n) item /\
                                     subscript item "id" = Ok i) names ids.
Proof.
  intros Hget Hiter Hitems Hnames.
  destruct (dict_of_items_indexable key items ∅ Hitems)
    as (lookup & Hdict & Hfound & Hfrom).
  rewrite (resolve_ids_unfold _ _ _ _ _ _ _ _ _ Hget Hiter Hdict).
  destruct (resolve_loop_found lookup key endpoint names []) as (ids & -> & Hids).
  { eapply Forall_impl; [exact Hnames |]. intros n Hn. apply Hfound. by right. }
  exists ids. split; [done |].
  eapply Forall2_impl; [exact Hids |]. intros n i Hn.
  destruct (Hfrom n i Hn) as [Hempty | Hitem];
    [by rewrite lookup_empty in Hempty | done].
Qed.

Lemma dict_of_items_keyless key pre kv post d :
  Forall (indexable key) pre ->
  assoc key kv = None ->
  dict_of_items key (pre ++ JObj kv :: post) d = Stop (Raised KeyError).
Proof.
  intros Hpre Hkv. revert d.
  induction Hpre as [|item pre (k & i & h & Hk & Hi & Hh) _ IH]; intros d; simpl.
  - by rewrite Hkv.
  - rewrite Hk, Hi. simpl. rewrite Hh. simpl. apply IH.
Qed.

(** X12. One listed item without the key field makes [_resolve_ids] raise
    [KeyError] whatever names are asked for, none at all included: the
    whole listing is indexed before any name is looked up. *)
Theorem resolve_ids_keyless_item self endpoint key names results pre kv post w w1 :
  _get_all self endpoint w = (Ok results, w1) ->
  py_iter results = Ok (pre ++ JObj kv :: post) ->
  Forall (indexable key) pre ->
  assoc key kv = None ->
  _resolve_ids self endpoint names key w = (Stop (Raised KeyError), w1).
Proof.
  intros Hget Hiter Hpre Hkv. unfold _resolve_ids.
  rewrite bind_unfold, Hget, bind_lift, Hiter. simpl.
  by rewrite dict_of_items_keyless.
Qed.

(** ** Payload Builder, further *)

Lemma resolve_ids_sent self endpoint names key w :
  sent (_resolve_ids self endpoint names key w).2 =
  sent w ++ [listing_request self endpoint].
Proof.
  unfold _resolve_ids. rewrite bind_unfold.
  pose proof (get_all_sent self endpoint w) as Hs.
  destruct (_get_all _ _ _) as [[r|st] w1]; [| done].
  rewrite bind_lift. by case_match.
Qed.

Lemma resolve_scap_content_sent self title w :
  sent (_resolve_scap_content self title w).2 =
  sent w ++ [listing_request self "/api/v2/compliance/scap_contents"].
Proof.
  unfold _resolve_scap_content. rewrite bind_unfold.
  pose proof (get_all_sent self "/api/v2/compliance/scap_contents" w) as Hs.
  destruct (_get_all _ _ _) as [[r|st] w1]; [| done].
  rewrite bind_lift. by repeat case_match.
Qed.

Lemma resolve_scap_profile_sent self title pid w :
  sent (_resolve_scap_profile self title pid w).2 =
  sent w ++ [listing_request self "/api/v2/compliance/scap_content_profiles"].
Proof.
  unfold _resolve_scap_profile. rewrite bind_unfold.
  pose proof (get_all_sent self "/api/v2/compliance/scap_content_profiles" w) as Hs.
  destruct (_get_all _ _ _) as [[r|st] w1]; [| done].
  rewrite bind_lift. by repeat case_match.
Qed.

(** X13. When [_build_policy_payload] returns, it has listed, in this
    order and once each, the SCAP contents, the SCAP content profiles,
    the organizations and the locations, and then the hostgroups unless
    no hostgroup was asked for, in which case they are not listed. *)
Theorem build_policy_payload_requests self w payload w' :
  _build_policy_payload self w = (Ok payload, w') ->
  sent w' =
  sent w ++
  (listing_request self <$>
     ["/api/v2/compliance/scap_contents";
      "/api/v2/compliance/scap_content_profiles";
      "/api/v2/organizations"; "/api/v2/locations"] ++
     match hostgroups (params self) with
     | [] => []
     | _ => ["/api/v2/hostgroups"]
     end).
Proof.
  unfold _build_policy_payload. intros H.
  apply bind_ok_inv in H as (sc & w1 & H1 & H).
  apply bind_ok_inv in H as (sp & w2 & H2 & H).
  apply bind_ok_inv in H as (orgs & w3 & H3 & H).
  apply bind_ok_inv in H as (locs & w4 & H4 & H).
  apply bind_ok_inv in H as (hgs & w5 & H5 & H).
  injection H as _ <-.
  pose proof (resolve_scap_content_sent self (scap_content (params self)) w) as S1.
  pose proof (resolve_scap_profile_sent self (scap_content (params self))
                (scap_content_profile (params self)) w1) as S2.
  pose proof (resolve_ids_sent self "/api/v2/organizations"
                (organizations (params self)) "name" w2) as S3.
  pose proof (resolve_ids_sent self "/api/v2/locations"
                (locations (params self)) "name" w3) as S4.
  rewrite H1 in S1. rewrite H2 in S2. rewrite H3 in S3. rewrite H4 in S4.
  simpl in S1, S2, S3, S4.
  destruct (hostgroups (params self)) as [|hg hgs'].
  - injection H5 as _ <-. rewrite S4, S3, S2, S1.
    rewrite fmap_app, !fmap_cons, fmap_nil, app_nil_r. by rewrite <- !app_assoc.
  - pose proof (resolve_ids_sent self "/api/v2/hostgroups"
                  (Some (hg :: hgs')) "title" w4) as S5.
    rewrite H5 in S5. simpl in S5. rewrite S5, S4, S3, S2, S1.
    rewrite fmap_app, !fmap_cons, fmap_nil. by rewrite <- !app_assoc.
Qed.

End Listing.

Lemma get_all_not_200_witness :
  let self := Sample.module Sample.desired false in
  let w := Cases.canned Cases.failing in
  exists w',
    _get_all self "/api/v2/organizations" w =
    (Stop (FailJson "Failed to query /api/v2/organizations: HTTP 500"), w') /\
    sent w' = [listing_request self "/api/v2/organizations"].
Proof.
  intros self w.
  destruct (get_all_not_200 (T := Canned.transport) self
              "/api/v2/organizations" w) as (msg & w' & Hrun & Hsent & ->).
  - simpl. lia.
  - exists w'. split; [exact Hrun | exact Hsent].
Defined.

Lemma get_all_empty_body_witness :
  let self := Sample.module Sample.desired false in
  let w := Cases.canned Cases.garbled in
  exists w', _get_all self "/api/v2/organizations" w = (Ok (JList []), w').
Proof.
  intros self w.
  apply (get_all_empty_body (T := Canned.transport) self
           "/api/v2/organizations" w).
  - reflexivity.
  - right. eexists. split; [reflexivity |]. right. reflexivity.
Defined.

Lemma find_policy_first_match_witness :
  let self := Sample.module Sample.desired false in
  let w := Sample.world Cases.twins in
  _find_policy self "P1" w =
  (Ok (Satellite.render_policy
         (Satellite.Row 3 [("name", JStr "P1"); ("description", JStr "first")])),
   (_get_all self policies_endpoint w).2).
Proof.
  intros self w.
  apply (find_policy_first_match (T := Satellite.transport) self "P1"
           (JList (Satellite.render_policy <$> Satellite.policies Cases.twins))
           [Satellite.render_policy (Satellite.Row 2 [("name", JStr "Other")])]
           _
           [Satellite.render_policy
              (Satellite.Row 4 [("name", JStr "P1");
                                ("description", JStr "second")])] w).
  - vm_compute. reflexivity.
  - reflexivity.
  - repeat constructor. exists (JStr "Other"). split; reflexivity.
  - exists (JStr "P1"). split; reflexivity.
Defined.

Lemma find_policy_nameless_witness :
  let self := Sample.module Sample.desired false in
  let w := Sample.world Cases.nameless in
  _find_policy self "P1" w =
  (Stop (Raised KeyError), (_get_all self policies_endpoint w).2).
Proof.
  intros self w.
  apply (find_policy_nameless (T := Satellite.transport) self "P1"
           (JList (Satellite.render_policy <$> Satellite.policies Cases.nameless))
           []
           [("id", JInt 2); ("organizations", JList []); ("locations", JList []);
            ("hostgroups", JList []); ("description", JStr "no name")]
           [Satellite.render_policy (Satellite.Row 3 [("name", JStr "P1")])] w).
  - vm_compute. reflexivity.
  - reflexivity.
  - constructor.
  - reflexivity.
Defined.

Lemma resolve_scap_content_first_witness :
  let self := Sample.module Sample.desired false in
  let w := Sample.world Cases.twins in
  _resolve_scap_content self (Some "C1") w =
  (Ok (JInt 1), (_get_all self "/api/v2/compliance/scap_contents" w).2).
Proof.
  intros self w.
  apply (resolve_scap_content_first (T := Satellite.transport) self "C1"
           (JList (Satellite.labelled "title" <$>
                     Satellite.scap_contents Cases.twins))
           [Satellite.labelled "title" (5%N, "C0")]
           (Satellite.labelled "title" (1%N, "C1"))
           [Satellite.labelled "title" (9%N, "C1")] (JInt 1) w).
  - vm_compute. reflexivity.
  - reflexivity.
  - repeat constructor. exists (JStr "C0"). split; reflexivity.
  - exists (JStr "C1"). split; reflexivity.
  - reflexivity.
Defined.

Lemma resolve_scap_content_not_found_witness :
  let self := Sample.module Sample.desired false in
  let w := Sample.world Sample.server in
  _resolve_scap_content self (Some "C7") w =
  (Stop (FailJson "SCAP content 'C7' not found"),
   (_get_all self "/api/v2/compliance/scap_contents" w).2).
Proof.
  intros self w.
  apply (resolve_scap_content_not_found (T := Satellite.transport) self "C7"
           (JList [Satellite.labelled "title" (1%N, "C1")])
           [Satellite.labelled "title" (1%N, "C1")] w).
  - vm_compute. reflexivity.
  - reflexivity.
  - repeat constructor. exists (JStr "C1"). split; reflexivity.
Defined.

Lemma resolve_scap_profile_scoped_witness :
  let self := Sample.module Sample.desired false in
  let w := Sample.world Cases.twins in
  _resolve_scap_profile self (Some "C1") (Some "prof-x") w =
  (Ok (JInt 7), (_get_all self "/api/v2/compliance/scap_content_profiles" w).2).
Proof.
  intros self w.
  apply (resolve_scap_profile_scoped (T := Satellite.transport) self
           "C1" "prof-x"
           (JList (Satellite.render_profile <$>
                     Satellite.scap_content_profiles Cases.twins))
           [Satellite.render_profile (8%N, ("prof-x", "C0"))]
           (Satellite.render_profile (7%N, ("prof-x", "C1")))
           [Satellite.render_profile (6%N, ("prof-y", "C1"))] (JInt 7) w).
  - vm_compute. reflexivity.
  - reflexivity.
  - repeat constructor. eexists. split; reflexivity.
  - eexists. split; reflexivity.
  - reflexivity.
  - reflexivity.
Defined.

Lemma resolve_scap_profile_not_found_witness :
  let self := Sample.module Sample.desired false in
  let w := Sample.world Sample.server in
  _resolve_scap_profile self (Some "C0") (Some "prof-x") w =
  (Stop (FailJson "SCAP profile 'prof-x' not found in content 'C0'"),
   (_get_all self "/api/v2/compliance/scap_content_profiles" w).2).
Proof.
  intros self w.
  apply (resolve_scap_profile_not_found (T := Satellite.transport) self
           "C0" "prof-x"
           (JList [Satellite.render_profile (7%N, ("prof-x", "C1"))])
           [Satellite.render_profile (7%N, ("prof-x", "C1"))] w).
  - vm_compute. reflexivity.
  - reflexivity.
  - repeat constructor. eexists. split; reflexivity.
Defined.

Lemma resolve_ids_complete_witness :
  let self := Sample.module Sample.desired false in
  let w := Sample.world Sample.server in
  exists ids,
    _resolve_ids self "/api/v2/organizations" (Some ["Org2"; "Org1"]) "name" w =
    (Ok ids, (_get_all self "/api/v2/organizations" w).2) /\
    Forall2 (fun n i => exists item, item ∈ Sample.org_items /\
                                     valued "name" (JStr n) item /\
                                     subscript item "id" = Ok i)
            ["Org2"; "Org1"] ids.
Proof.
  intros self w.
  apply (resolve_ids_complete (T := Satellite.transport) self
           "/api/v2/organizations" "name" ["Org2"; "Org1"]
           (JList Sample.org_items) Sample.org_items w).
  - vm_compute. reflexivity.
  - reflexivity.
  - repeat constructor; eexists _, _, _; repeat split; reflexivity.
  - constructor; [| constructor; [| constructor]].
    + apply Exists_cons_tl, Exists_cons_hd. eexists. split; reflexivity.
    + apply Exists_cons_hd. eexists. split; reflexivity.
Defined.

Lemma resolve_ids_keyless_item_witness :
  let self := Sample.module Sample.desired false in
  let w := Cases.canned Cases.keyless in
  _resolve_ids self "/api/v2/organizations" None "name" w =
  (Stop (Raised KeyError), (_get_all self "/api/v2/organizations" w).2).
Proof.
  intros self w.
  apply (resolve_ids_keyless_item (T := Canned.transport) self
           "/api/v2/organizations" "name" None
           (JList [JObj [("id", JInt 1); ("name", JStr "A")];
                   JObj [("id", JInt 2)]])
           [JObj [("id", JInt 1); ("name", JStr "A")]]
           [("id", JInt 2)] [] w).
  - reflexivity.
  - reflexivity.
  - repeat constructor. eexists _, _, _. repeat split; reflexivity.
  - reflexivity.
Defined.

Section Reconciling.
Context {T : Transport}.
Implicit Types (w : World T) (self : AnsibleModule).

Ltac mrun :=
  cbv beta iota zeta
      delta [mbind M_bind mret M_ret lift when exit_json fail_json].

(** ** Reconciler, further *)

Lemma find_policy_sent self name w :
  sent (_find_policy self name w).2 =
  sent w ++ [listing_request self policies_endpoint].
Proof.
  unfold _find_policy. rewrite bind_unfold.
  pose proof (get_all_sent self "/api/v2/compliance/policies" w) as Hs.
  by destruct (_get_all _ _ _) as [[r|st] w1].
Qed.

(** [plan_of], step by step. *)
Lemma plan_of_cases self w :
  match _find_policy self (name (params self)) w with
  | (Stop st, w1) => plan_of self w = (Stop st, w1)
  | (Ok existing, w1) =>
      match state (params self) with
      | absent =>
          plan_of self w =
          (Ok (if is_None existing then Nothing else Remove existing), w1)
      | present =>
          match _build_policy_payload self w1 with
          | (Stop st, w2) => plan_of self w = (Stop st, w2)
          | (Ok payload, w2) =>
              if is_None existing
              then plan_of self w = (Ok (Create payload), w2)
              else match _needs_update existing payload with
                   | Ok differs =>
                       plan_of self w =
                       (Ok (if differs then Update existing payload
                            else Keep existing), w2)
                   | Stop st => plan_of self w = (Stop st, w2)
                   end
          end
      end
  end.
Proof.
  unfold plan_of. mrun.
  destruct (_find_policy _ _ _) as [[existing|st] w1]; [| done].
  destruct (state _); [| done].
  destruct (_build_policy_payload _ _) as [[payload|st] w2]; [| done].
  destruct (is_None existing); [done |].
  by destruct (_needs_update _ _).
Qed.

(** The reads of [plan_of]: at least the listing of the policies. *)
Lemma plan_of_log self w :
  exists reads g,
    sent (plan_of self w).2 = sent w ++ reads ++ [g] /\
    rq_method g = GET /\ Forall (fun r => rq_method r = GET) reads.
Proof.
  pose proof (find_policy_sent self (name (params self)) w) as Hfind.
  pose proof (plan_of_cases self w) as Hplan.
  assert (forall w1 w0, only_reads w1 w0 ->
            sent w1 = sent w ++ [listing_request self policies_endpoint] ->
            exists reads g, sent w0 = sent w ++ reads ++ [g] /\
              rq_method g = GET /\ Forall (fun r => rq_method r = GET) reads)
    as Hgrow.
  { intros w1 w0 (more & Hmore & Hgets) Hw1. rewrite Hmore, Hw1.
    destruct more as [|r more _] using rev_ind.
    - exists [], (listing_request self policies_endpoint).
      by rewrite app_nil_r.
    - apply Forall_app in Hgets as [Hgets Hr]. apply Forall_cons in Hr as [Hr _].
      exists (listing_request self policies_endpoint :: more), r.
      split; [by rewrite <- !app_assoc | split; [done | by constructor]]. }
  destruct (_find_policy _ _ _) as [[existing|st] w1]; simpl in Hfind.
  - destruct (state _).
    + pose proof (read_only_build_policy_payload self w1) as Hb.
      destruct (_build_policy_payload _ _) as [[payload|st] w2]; simpl in Hb.
      * assert ((plan_of self w).2 = w2) as ->.
        { destruct (is_None existing); [by rewrite Hplan |].
          destruct (_needs_update _ _); by rewrite Hplan. }
        by eapply Hgrow.
      * rewrite Hplan. by eapply Hgrow.
    + rewrite Hplan. eapply Hgrow; [apply only_reads_refl | done].
  - rewrite Hplan. eapply Hgrow; [apply only_reads_refl | done].
Qed.

Ltac flags :=
  repeat split; simpl; rewrite ?app_nil_r;
  try done; try (by intros [=]); try (by eexists).

Lemma perform_log self pl w :
  sent (perform self pl w).2 = sent w ++ option_list (plan_request self pl) /\
  (changed_flag (perform self pl w).1 = Some true -> is_Some (plan_request self pl)) /\
  (changed_flag (perform self pl w).1 = Some false -> plan_request self pl = None).
Proof.
  destruct pl; unfold perform, plan_request, request_at_id; mrun.
  - flags.
  - destruct (subscript existing "id") as [i|st] eqn:Hid.
    + pose proof (api_request_sent self DELETE
                    (policies_endpoint +:+ "/" +:+ py_str i) None w) as Hs.
      destruct (_api_request _ _ _ _ _) as [[[status result]|st] w1] eqn:Hrq;
        simpl in Hs.
      * destruct (negb _); flags.
      * apply api_request_aborts in Hrq. destruct st; [done | flags..].
    + apply subscript_aborts in Hid. destruct st; [done | flags..].
  - pose proof (api_request_sent self POST policies_endpoint (Some payload) w) as Hs.
    destruct (_api_request _ _ _ _ _) as [[[status result]|st] w1] eqn:Hrq;
      simpl in Hs.
    + destruct (negb _); [destruct (error_detail result) as [d|st] eqn:Hd |];
        [flags | | flags].
      apply error_detail_aborts in Hd. destruct st; [done | flags..].
    + apply api_request_aborts in Hrq. destruct st; [done | flags..].
  - flags.
  - destruct (subscript existing "id") as [i|st] eqn:Hid.
    + pose proof (api_request_sent self PUT
                    (policies_endpoint +:+ "/" +:+ py_str i) (Some payload) w) as Hs.
      destruct (_api_request _ _ _ _ _) as [[[status result]|st] w1] eqn:Hrq;
        simpl in Hs.
      * destruct (negb _); [destruct (error_detail result) as [d|st] eqn:Hd |];
          [flags | | flags].
        apply error_detail_aborts in Hd. destruct st; [done | flags..].
      * apply api_request_aborts in Hrq. destruct st; [done | flags..].
    + apply subscript_aborts in Hid. destruct st; [done | flags..].
Qed.


Lemma last_is_read (l reads : list Request) g l' r :
  l ++ reads ++ [g] = l' ++ [r] -> rq_method g = GET -> mutating r = true -> False.
Proof.
  rewrite app_assoc. intros [_ <-]%app_inj_tail Hg. unfold mutating.
  by rewrite Hg.
Qed.

(** X14. Every request of [run] is a read except possibly the last: the
    log grows by reads followed by at most one write.  When [run] reports
    no change it has written nothing, and when it reports a change
    outside check mode it has written exactly once. *)
Theorem run_at_most_one_write self w :
  exists reads ws,
    sent (run self w).2 = sent w ++ reads ++ ws /\
    Forall (fun r => rq_method r = GET) reads /\
    Forall (fun r => mutating r = true) ws /\
    (length ws <= 1)%nat /\
    (changed_flag (run self w).1 = Some false -> ws = []) /\
    (check_mode self = false ->
     changed_flag (run self w).1 = Some true -> length ws = 1%nat).
Proof.
  rewrite run_plan, bind_unfold.
  destruct (plan_of_log self w) as (reads & g & Hlog & Hg & Hreads).
  assert (Forall (fun r => rq_method r = GET) (reads ++ [g])) as Hall
    by (apply Forall_app; split; [done | by constructor]).
  destruct (plan_of self w) as [[pl|st] w0] eqn:Hplan; simpl in Hlog.
  - destruct (check_mode self).
    + exists (reads ++ [g]), []. rewrite simulate_stays, Hlog, app_nil_r.
      repeat split; [done | constructor | simpl; lia | done].
    + destruct (perform_log self pl w0) as (Hsent & Htrue & Hfalse).
      exists (reads ++ [g]), (option_list (plan_request self pl)).
      rewrite Hsent, Hlog. split; [by rewrite <- !app_assoc |].
      split; [done |]. split.
      { destruct pl; simpl; unfold request_at_id; repeat case_match;
          simplify_eq/=; by repeat constructor. }
      split; [destruct (plan_request self pl); simpl; lia |].
      split; [intros Hf; by rewrite (Hfalse Hf) |].
      intros _ Ht. by destruct (Htrue Ht) as [r ->].
  - exists (reads ++ [g]), []. simpl. rewrite Hlog, app_nil_r.
    repeat split; [done | constructor | simpl; lia |].
    intros _ Hflag. apply never_exits_plan_of in Hplan. by destruct st.
Qed.

(** X15. When the last request of [run] is a write, the module is not in
    check mode, the policy was located, and the write is the one that the
    state calls for: for [absent], a DELETE at the [id] of the located
    policy; for [present], after the payload was built, a POST of the
    payload to the collection when no policy was found, and otherwise a
    PUT of the payload at the [id] of the located policy, which
    [_needs_update] found to differ. *)
Theorem run_write_shape self w l r :
  sent (run self w).2 = l ++ [r] ->
  mutating r = true ->
  check_mode self = false /\
  exists existing w1,
    _find_policy self (name (params self)) w = (Ok existing, w1) /\
    match state (params self) with
    | absent => l = sent w1 /\ request_at_id self DELETE existing None = Some r
    | present =>
        exists payload w2,
          _build_policy_payload self w1 = (Ok payload, w2) /\
          l = sent w2 /\
          if is_None existing
          then r = {| rq_method := POST;
                      rq_url := self_server_url self +:+ policies_endpoint;
                      rq_data := Some payload |}
          else _needs_update existing payload = Ok true /\
               request_at_id self PUT existing (Some payload) = Some r
    end.
Proof.
  rewrite run_plan, bind_unfold. intros Hlast Hr.
  destruct (plan_of_log self w) as (reads & g & Hlog & Hg & Hreads).
  pose proof (plan_of_cases self w) as Hcases.
  destruct (plan_of self w) as [[pl|st] w0] eqn:Hplan; simpl in Hlog;
    [| simpl in Hlast; rewrite Hlog in Hlast; by destruct (last_is_read _ _ _ _ _ Hlast)].
  destruct (check_mode self).
  { rewrite simulate_stays, Hlog in Hlast. by destruct (last_is_read _ _ _ _ _ Hlast). }
  split; [done |].
  destruct (perform_log self pl w0) as (Hsent & _ & _).
  rewrite Hsent in Hlast.
  destruct (plan_request self pl) as [r'|] eqn:Hreq; simpl in Hlast;
    [| rewrite app_nil_r, Hlog in Hlast; by destruct (last_is_read _ _ _ _ _ Hlast)].
  apply app_inj_tail in Hlast as [<- <-].
  destruct (_find_policy _ _ _) as [[existing|st] w1]; [| done].
  exists existing, w1. split; [done |].
  destruct (state _).
  - destruct (_build_policy_payload _ _) as [[payload|st] w2]; [| done].
    exists payload, w2. split; [done |].
    destruct (is_None existing).
    + by simplify_eq/=.
    + destruct (_needs_update _ _) as [[|]|]; simplify_eq/=. done.
  - destruct (is_None existing); by simplify_eq/=.
Qed.

(** X16. With [state=present], a located policy and a payload that
    [_needs_update] finds equal to it, [run] exits unchanged with the
    located policy and has only read, in check mode or not. *)
Theorem run_keeps self w existing w1 payload w2 :
  state (params self) = present ->
  _find_policy self (name (params self)) w = (Ok existing, w1) ->
  is_None existing = false ->
  _build_policy_payload self w1 = (Ok payload, w2) ->
  _needs_update existing payload = Ok false ->
  run self w = (Stop (ExitJson false (entity [existing])), w2) /\
  only_reads w w2.
Proof.
  intros Hstate Hfind Hnone Hbuild Hsame.
  pose proof (plan_of_cases self w) as Hcases.
  rewrite Hfind, Hstate, Hbuild, Hnone, Hsame in Hcases.
  pose proof (read_only_plan_of self w) as Hro. rewrite Hcases in Hro.
  split; [| done].
  rewrite run_plan, bind_unfold, Hcases. by destruct (check_mode self).
Qed.

Lemma perform_changed self pl w e w' :
  perform self pl w = (Stop (ExitJson true e), w') ->
  exists meth endpoint data status result,
    meth <> GET /\
    _api_request self meth endpoint data w = (Ok (status, result), w') /\
    accepts meth status = true /\
    e = entity (match meth with DELETE => [] | _ => [result] end).
Proof.
  destruct pl; unfold perform; mrun.
  - by intros [=].
  - destruct (subscript existing "id") as [i|st] eqn:Hid;
      [| intros [= -> _]; by apply subscript_aborts in Hid].
    destruct (_api_request _ _ _ _ _) as [[[status result]|st] w1] eqn:Hrq;
      [| intros [= -> _]; by apply api_request_aborts in Hrq].
    destruct (negb _) eqn:Hst; [by intros [=] |]. intros [= <- <-].
    apply negb_false_iff in Hst. by eexists DELETE, _, _, status, result.
  - destruct (_api_request _ _ _ _ _) as [[[status result]|st] w1] eqn:Hrq;
      [| intros [= -> _]; by apply api_request_aborts in Hrq].
    destruct (negb _) eqn:Hst.
    + destruct (error_detail result) as [d|st] eqn:Hd; [by intros [=] |].
      intros [= -> _]. by apply error_detail_aborts in Hd.
    + intros [= <- <-]. apply negb_false_iff in Hst.
      by eexists POST, _, _, status, result.
  - by intros [=].
  - destruct (subscript existing "id") as [i|st] eqn:Hid;
      [| intros [= -> _]; by apply subscript_aborts in Hid].
    destruct (_api_request _ _ _ _ _) as [[[status result]|st] w1] eqn:Hrq;
      [| intros [= -> _]; by apply api_request_aborts in Hrq].
    destruct (negb _) eqn:Hst.
    + destruct (error_detail result) as [d|st] eqn:Hd; [by intros [=] |].
      intros [= -> _]. by apply error_detail_aborts in Hd.
    + intros [= <- <-]. apply negb_false_iff in Hst.
      by eexists PUT, _, _, status, result.
Qed.

(** X17. Outside check mode, [run] reports a change only after a write
    that the server answered with an accepted status: 201 for POST, 200
    for PUT, 200 or 204 for DELETE.  The reported policy is the decoded
    answer, and for DELETE there is none. *)
Theorem run_changed_means_accepted self w e w' :
  check_mode self = false ->
  run self w = (Stop (ExitJson true e), w') ->
  exists w0 meth endpoint data status result,
    only_reads w w0 /\
    meth <> GET /\
    _api_request self meth endpoint data w0 = (Ok (status, result), w') /\
    accepts meth status = true /\
    e = entity (match meth with DELETE => [] | _ => [result] end).
Proof.
  intros Hcheck. rewrite run_plan, bind_unfold, Hcheck.
  pose proof (read_only_plan_of self w) as Hro.
  destruct (plan_of self w) as [[pl|st] w0] eqn:Hplan; simpl in Hro.
  - intros (meth & endpoint & data & status & result & H)%perform_changed.
    by exists w0, meth, endpoint, data, status, result.
  - intros [= -> _]. by apply never_exits_plan_of in Hplan.
Qed.

(** X18. A creation that the server answers with a status other than 201
    ends the run without an exit: with a failure message that gives the
    policy name, the status and the [message] of the [error] of the
    answer, or the whole answer where it has none; and with
    [AttributeError] when the answer, or its [error], is JSON but not a
    dictionary. *)
Theorem run_create_refused self w w1 payload w2 status result w3 :
  state (params self) = present ->
  check_mode self = false ->
  _find_policy self (name (params self)) w = (Ok JNull, w1) ->
  _build_policy_payload self w1 = (Ok payload, w2) ->
  _api_request self POST policies_endpoint (Some payload) w2 =
    (Ok (status, result), w3) ->
  status <> 201 ->
  run self w =
  (Stop (match result with
         | JObj kv =>
             match default (JObj []) (assoc "error" kv) with
             | JObj e =>
                 FailJson ("Failed to create policy '" +:+ name (params self) +:+
                           "': HTTP " +:+ str_of_Z status +:+ " - " +:+
                           py_str (default result (assoc "message" e)))
             | _ => Raised AttributeError
             end
         | _ => Raised AttributeError
         end), w3).
Proof.
  intros Hstate Hcheck Hfind Hbuild Hpost Hstatus.
  pose proof (plan_of_cases self w) as Hplan.
  rewrite Hfind, Hstate, Hbuild in Hplan. cbn [is_None] in Hplan.
  rewrite run_plan, bind_unfold, Hplan, Hcheck.
  unfold perform. mrun. rewrite Hpost.
  apply Z.eqb_neq in Hstatus. rewrite Hstatus. cbn [negb].
  unfold error_detail.
  destruct result as [| | | | |kv]; try done.
  cbn [py_get mbind res_bind default].
  by destruct (assoc "error" kv) as [[| | | | |e]|].
Qed.

(** ** Diff Engine, further *)

(** X19. [_needs_update] reads of the remote policy only the compared
    fields: two remote policies that agree on them get the same answer,
    failure included, whatever else they hold. *)
Theorem needs_update_ignores ekv ekv' desired :
  (forall k, k ∈ compared_keys desired -> assoc k ekv = assoc k ekv') ->
  _needs_update (JObj ekv) (JObj [("policy", desired)]) =
  _needs_update (JObj ekv') (JObj [("policy", desired)]).
Proof.
  intros Hsame. unfold _needs_update.
  change (subscript (JObj [("policy", desired)]) "policy") with (Ok desired).
  cbn [mbind res_bind].
  assert (forall k d, k ∈ compared_keys desired ->
            py_get (JObj ekv) k d = py_get (JObj ekv') k d) as Hget.
  { intros k d Hk. simpl. by rewrite (Hsame k Hk). }
  assert (forall k d, k ∈ compared_keys desired ->
            field_ne (JObj ekv) desired k d = field_ne (JObj ekv') desired k d)
    as Hfield.
  { intros k d Hk. unfold field_ne. by rewrite (Hget k d Hk). }
  assert (forall k, k ∈ compared_keys desired ->
            existing_ids (JObj ekv) k = existing_ids (JObj ekv') k) as Hids.
  { intros k Hk. unfold existing_ids. by rewrite (Hget k _ Hk). }
  rewrite (Hfield "description"), (Hfield "scap_content_id"),
    (Hfield "scap_content_profile_id"), (Hfield "period"), (Hfield "deploy_by"),
    (Hids "organizations"), (Hids "locations"), (Hids "hostgroups")
    by (unfold compared_keys; set_solver).
  destruct desired as [| | | | |dkv];
    try (by destruct (field_ne (JObj ekv') _ "description" _)).
  assert (forall k, active_schedule (JObj dkv) = Some k ->
            field_ne (JObj ekv) (JObj dkv) k JNull =
            field_ne (JObj ekv') (JObj dkv) k JNull) as Hsched.
  { intros k Hk. apply Hfield. unfold compared_keys. rewrite Hk. set_solver. }
  unfold active_schedule in Hsched.
  change (py_get (JObj dkv) "period" JNull)
    with (Ok (field (JObj dkv) "period" JNull)).
  cbn [mbind res_bind].
  do 5 (match goal with
        | |- context [field_ne (JObj ekv') ?d ?k ?x] =>
            destruct (field_ne (JObj ekv') d k x); cbn [mbind res_bind]; [| done]
        end).
  cbv zeta in Hsched.
  destruct (py_eq (field (JObj dkv) "period" JNull) (JStr "weekly"));
    [by rewrite (Hsched "weekday") |].
  destruct (py_eq (field (JObj dkv) "period" JNull) (JStr "monthly"));
    [by rewrite (Hsched "day_of_month") |].
  destruct (py_eq (field (JObj dkv) "period" JNull) (JStr "custom"));
    [by rewrite (Hsched "cron_line") | done].
Qed.

End Reconciling.

Lemma build_policy_payload_requests_witness :
  let self := Sample.module Sample.desired false in
  let w := Sample.world Sample.server in
  sent (_build_policy_payload self w).2 =
  listing_request self <$>
    ["/api/v2/compliance/scap_contents";
     "/api/v2/compliance/scap_content_profiles";
     "/api/v2/organizations"; "/api/v2/locations"].
Proof.
  intros self w.
  apply (build_policy_payload_requests (T := Satellite.transport) self w
           Cases.payload_P1).
  vm_compute. reflexivity.
Defined.

Lemma run_write_shape_witness :
  let self := Sample.module Sample.desired false in
  let w := Sample.world Sample.server in
  check_mode self = false /\
  exists existing w1,
    _find_policy self "P1" w = (Ok existing, w1) /\
    exists payload w2,
      _build_policy_payload self w1 = (Ok payload, w2) /\
      sent (_build_policy_payload self (_find_policy self "P1" w).2).2 = sent w2 /\
      if is_None existing
      then {| rq_method := POST;
              rq_url := "https://satellite.example.com/api/v2/compliance/policies";
              rq_data := Some Cases.payload_P1 |} =
           {| rq_method := POST;
              rq_url := self_server_url self +:+ policies_endpoint;
              rq_data := Some payload |}
      else _needs_update existing payload = Ok true /\
           request_at_id self PUT existing (Some payload) =
           Some {| rq_method := POST;
                   rq_url := "https://satellite.example.com/api/v2/compliance/policies";
                   rq_data := Some Cases.payload_P1 |}.
Proof.
  intros self w.
  apply (run_write_shape (T := Satellite.transport) self w
           (sent (_build_policy_payload self (_find_policy self "P1" w).2).2)
           {| rq_method := POST;
              rq_url := "https://satellite.example.com/api/v2/compliance/policies";
              rq_data := Some Cases.payload_P1 |}).
  - vm_compute. reflexivity.
  - reflexivity.
Defined.

Lemma run_keeps_witness :
  let self := Sample.module Sample.desired false in
  let w := Sample.world Cases.settled in
  run self w =
  (Stop (ExitJson false
           (entity [Satellite.render_policy (Satellite.Row 3 Cases.policy_P1)])),
   (_build_policy_payload self (_find_policy self "P1" w).2).2) /\
  only_reads w (_build_policy_payload self (_find_policy self "P1" w).2).2.
Proof.
  intros self w.
  apply (run_keeps (T := Satellite.transport) self w
           (Satellite.render_policy (Satellite.Row 3 Cases.policy_P1))
           (_find_policy self "P1" w).2 Cases.payload_P1).
  - reflexivity.
  - vm_compute. reflexivity.
  - reflexivity.
  - vm_compute. reflexivity.
  - vm_compute. reflexivity.
Defined.

Lemma run_changed_means_accepted_witness :
  let self := Sample.module Sample.desired false in
  let w := Sample.world Sample.server in
  exists w0 meth endpoint data status result,
    only_reads w w0 /\
    meth <> GET /\
    _api_request self meth endpoint data w0 =
    (Ok (status, result), (run self w).2) /\
    accepts meth status = true /\
    entity [Satellite.render_policy (Satellite.Row 3 Cases.policy_P1)] =
    entity (match meth with DELETE => [] | _ => [result] end).
Proof.
  intros self w.
  apply (run_changed_means_accepted (T := Satellite.transport) self w).
  - reflexivity.
  - vm_compute. reflexivity.
Defined.

Lemma run_create_refused_witness :
  let self := Sample.module Sample.desired false in
  let w := Sample.world Sample.locked in
  run self w =
  (Stop (FailJson "Failed to create policy 'P1': HTTP 403 - Forbidden"),
   (run self w).2).
Proof.
  intros self w.
  apply (run_create_refused (T := Satellite.transport) self w
           (_find_policy self "P1" w).2 Cases.payload_P1
           (_build_policy_payload self (_find_policy self "P1" w).2).2
           403 (JObj [("error", JObj [("message", JStr "Forbidden")])])).
  - reflexivity.
  - reflexivity.
  - vm_compute. reflexivity.
  - vm_compute. reflexivity.
  - vm_compute. reflexivity.
  - lia.
Defined.

Lemma needs_update_ignores_witness :
  _needs_update Sample.remote_policy (JObj [("policy", Sample.desired_policy)]) =
  _needs_update
    (JObj [("id", JInt 11); ("name", JStr "renamed");
           ("created_at", JStr "2024-01-01"); ("description", JStr "");
           ("scap_content_id", JInt 1); ("scap_content_profile_id", JInt 7);
           ("period", JStr "weekly"); ("weekday", JStr "monday");
           ("day_of_month", JInt 3); ("deploy_by", JStr "ansible");
           ("organizations", JList [JObj [("id", JInt 4); ("name", JStr "Org2")]]);
           ("locations", JList [JObj [("id", JInt 5); ("name", JStr "Loc1")]]);
           ("hostgroups", JList [])])
    (JObj [("policy", Sample.desired_policy)]).
Proof.
  apply (needs_update_ignores _ _ Sample.desired_policy).
  apply Forall_forall. vm_compute. repeat constructor.
Defined.
